(** * kaneo: workspace_member reconciliation and the task priority popover

    A shallow embedding of
    [apps/api/src/utils/migrate-workspace-user-email.ts]
    ([migrateWorkspaceUserEmail]) and of the [TaskPriorityPopover]
    component that follows it in the same source file.

    Layout:
    - [JS]       the JavaScript values and objects both fragments handle;
    - [Routine]  the reconciliation routine, written once over an abstract
                 [db.execute]; a run yields the database it leaves, the
                 trace of what it did, and what it returned or threw;
    - [Pg]       the two tables and the meaning of the nine SQL statements;
    - [Popover]  the widget: its option list, its render and its handler;
    - [Closed]   the run on [Pg], branch by branch, for the proofs;
    - [Samples]  a few databases and a task;
    - the theorems: errors over any database, then the routine on [Pg],
      then the popover. *)

From Stdlib Require Import String Ascii List ZArith NArith Lia Bool.
From Stdlib Require Import DecimalString DecimalN Sorted.
Import ListNotations.
Open Scope string_scope.
Open Scope list_scope.

(* ------------------------------------------------------------------ *)
(** ** JavaScript values *)

Module JS.

(** The values that occur in the two fragments.  Numbers are the integral
    ones: the only number the code computes is [Number(count)] of a row
    count, and it is only compared with [0]. *)
Inductive value : Type :=
| undefined
| null
| boolean (b : bool)
| number (z : Z)
| str (s : string).

(** A plain object: its own properties, in insertion order. *)
Definition object : Type := list (string * value).

(** [o.k]; a missing property reads as [undefined]. *)
Fixpoint get (o : object) (k : string) : value :=
  match o with
  | [] => undefined
  | (k', v) :: rest => if String.eqb k' k then v else get rest k
  end.

(** [{...o, k: v}]: the properties of [o], with [k] overridden where it
    stands, or added last. *)
Fixpoint set (k : string) (v : value) (o : object) : object :=
  match o with
  | [] => [(k, v)]
  | (k', v') :: rest =>
      if String.eqb k' k then (k, v) :: rest else (k', v') :: set k v rest
  end.

(** ToBoolean. *)
Definition truthy (v : value) : bool :=
  match v with
  | undefined | null => false
  | boolean b => b
  | number z => negb (z =? 0)%Z
  | str s => negb (String.eqb s EmptyString)
  end.

(** [Number(v)]; [None] is NaN.  A string is read as a run of decimal
    digits (the empty string is [0]), which is how node-postgres hands
    over a bigint such as [COUNT( * )]; numeric strings in other notations
    (sign, fraction, exponent, radix prefix, surrounding blanks) are not
    decoded here. *)
Definition Number (v : value) : option Z :=
  match v with
  | undefined => None
  | null => Some 0%Z
  | boolean b => Some (if b then 1%Z else 0%Z)
  | number z => Some z
  | str s =>
      match NilEmpty.uint_of_string s with
      | Some d => Some (Z.of_N (N.of_uint d))
      | None => None
      end
  end.

(** [x > z]; a comparison with NaN is false. *)
Definition gt (x : option Z) (z : Z) : bool :=
  match x with
  | Some n => (z <? n)%Z
  | None => false
  end.

(** [a === b]. *)
Definition strict_eq (a b : value) : bool :=
  match a, b with
  | undefined, undefined => true
  | null, null => true
  | boolean x, boolean y => Bool.eqb x y
  | number x, number y => (x =? y)%Z
  | str x, str y => String.eqb x y
  | _, _ => false
  end.

End JS.

(* ------------------------------------------------------------------ *)
(** ** The reconciliation routine *)

Module Routine.

(** The nine SQL texts handed to [db.execute], in source order. *)
Inductive statement : Type :=
| SelectUserEmailColumn   (* SELECT column_name FROM information_schema.columns ... *)
| AddUserIdColumn         (* DO $$ ... ALTER TABLE ... ADD COLUMN "user_id" text ... $$ *)
| UpdateUserId            (* UPDATE "workspace_member" SET "user_id" = (SELECT u.id ...) ... *)
| CountOrphaned           (* SELECT COUNT( * ) ... user_id IS NULL AND user_email IS NOT NULL *)
| DeleteOrphaned          (* DELETE ... user_id IS NULL AND user_email IS NOT NULL *)
| CountNullRecords        (* SELECT COUNT( * ) ... user_id IS NULL AND (user_email IS NULL OR = '') *)
| DeleteNullRecords       (* DELETE ... user_id IS NULL AND (user_email IS NULL OR = '') *)
| CountNullUserIds        (* SELECT COUNT( * ) ... user_id IS NULL *)
| DeleteNullUserIds.      (* DELETE ... user_id IS NULL *)

Definition statement_eq_dec (a b : statement) : {a = b} + {a <> b}.
Proof. decide equality. Defined.

(** What [db.execute] resolves to: the code reads [.rows] only. *)
Record QueryResult : Type := { rows : list JS.object }.

(** The database behind [db.execute]: a state and, for each statement, the
    state it leaves and either the error it throws or its result. *)
Class Database (S E : Type) : Type :=
  { execute : statement -> S -> S * (E + QueryResult) }.

(** The [console.log] lines; the three templated ones carry the value
    interpolated into them. *)
Inductive message : Type :=
| Checking                                  (* line 10 *)
| FoundUserEmailColumn                      (* line 24 *)
| FoundInvalidUserEmail (count : JS.value)  (* line 62 *)
| FoundNoUserIdentification (count : JS.value) (* line 80 *)
| MigratedUserEmail                         (* line 90 *)
| FoundNullUserId (count : JS.value)        (* line 101 *)
| RemovedNullUserId                         (* line 110 *)
| Completed.                                (* line 113 *)

(** What the routine does to the outside, in order.  A [db.execute] call is
    recorded with the database it ran on and with what it threw, if it
    did. *)
Inductive event (S E : Type) : Type :=
| Executed (q : statement) (on : S) (thrown : option E)
| ConsoleLog (m : message)
| ConsoleError (e : E).   (* console.error("Error during workspace member migration:", e) *)
Arguments Executed {S E} q on thrown.
Arguments ConsoleLog {S E} m.
Arguments ConsoleError {S E} e.

Section Monad.
Context {S E : Type}.

(** A computation threads the database, emits events and either throws
    or returns. *)
Definition M (A : Type) : Type := S -> S * list (event S E) * (E + A).

Definition ret {A} (a : A) : M A := fun s => (s, [], inr a).

Definition bind {A B} (m : M A) (k : A -> M B) : M B :=
  fun s =>
    match m s with
    | (s1, t1, inl e) => (s1, t1, inl e)
    | (s1, t1, inr a) =>
        match k a s1 with
        | (s2, t2, r) => (s2, t1 ++ t2, r)
        end
    end.

Definition throw {A} (e : E) : M A := fun s => (s, [], inl e).

(** [try { body } catch (error) { handler error }]. *)
Definition try_catch {A} (body : M A) (handler : E -> M A) : M A :=
  fun s =>
    match body s with
    | (s1, t1, inr a) => (s1, t1, inr a)
    | (s1, t1, inl e) =>
        match handler e s1 with
        | (s2, t2, r) => (s2, t1 ++ t2, r)
        end
    end.

Definition console_log (m : message) : M unit :=
  fun s => (s, [ConsoleLog m], inr tt).

Definition console_error (e : E) : M unit :=
  fun s => (s, [ConsoleError e], inr tt).

(** [await db.execute(sql`...`)]. *)
Definition db_execute `{Database S E} (q : statement) : M QueryResult :=
  fun s =>
    match execute q s with
    | (s1, inl e) => (s1, [Executed q s (Some e)], inl e)
    | (s1, inr r) => (s1, [Executed q s None], inr r)
    end.

(** [if (c) { body }]. *)
Definition when (c : bool) (body : M unit) : M unit :=
  if c then body else ret tt.
End Monad.

Declare Scope routine_scope.
Delimit Scope routine_scope with routine.
Notation "x <- c ;; k" := (bind c (fun x => k))
  (at level 100, c at next level, right associativity) : routine_scope.
Notation "c ;; k" := (bind c (fun _ => k))
  (at level 100, right associativity) : routine_scope.

(** [q.rows[0]?.count]. *)
Definition count_of (q : QueryResult) : JS.value :=
  match rows q with
  | [] => JS.undefined
  | o :: _ => JS.get o "count"
  end.

(** [q.rows[0]?.count && Number(q.rows[0].count) > 0]. *)
Definition count_is_positive (q : QueryResult) : bool :=
  JS.truthy (count_of q) && JS.gt (JS.Number (count_of q)) 0.

Section Body.
Context {S E : Type} `{Database S E}.
Local Open Scope routine_scope.

(** Lines 23-91: the branch taken when the legacy column is there. *)
Definition legacy_branch : M (S := S) (E := E) unit :=
  console_log FoundUserEmailColumn ;;
  _ <- db_execute AddUserIdColumn ;;
  _ <- db_execute UpdateUserId ;;
  orphanedRecords <- db_execute CountOrphaned ;;
  when (count_is_positive orphanedRecords)
    (console_log (FoundInvalidUserEmail (count_of orphanedRecords)) ;;
     _ <- db_execute DeleteOrphaned ;;
     ret tt) ;;
  nullRecords <- db_execute CountNullRecords ;;
  when (count_is_positive nullRecords)
    (console_log (FoundNoUserIdentification (count_of nullRecords)) ;;
     _ <- db_execute DeleteNullRecords ;;
     ret tt) ;;
  console_log MigratedUserEmail.

(** Lines 93-111: the check that runs on every call. *)
Definition final_sweep : M (S := S) (E := E) unit :=
  nullUserIds <- db_execute CountNullUserIds ;;
  when (count_is_positive nullUserIds)
    (console_log (FoundNullUserId (count_of nullUserIds)) ;;
     _ <- db_execute DeleteNullUserIds ;;
     console_log RemovedNullUserId).

(** Lines 9-118. *)
Definition migrateWorkspaceUserEmail : M (S := S) (E := E) unit :=
  console_log Checking ;;
  try_catch
    (hasUserEmailColumn <- db_execute SelectUserEmailColumn ;;
     when (0 <? length (rows hasUserEmailColumn))%nat legacy_branch ;;
     final_sweep ;;
     console_log Completed)
    (fun error => console_error error ;; throw error).
End Body.

(** Readings of a run. *)
Definition final_db {S E A} (r : S * list (event S E) * (E + A)) : S :=
  fst (fst r).
Definition trace {S E A} (r : S * list (event S E) * (E + A)) : list (event S E) :=
  snd (fst r).
Definition outcome {S E A} (r : S * list (event S E) * (E + A)) : E + A :=
  snd r.

(** The statements a trace executed, in order. *)
Fixpoint executed {S E} (t : list (event S E)) : list statement :=
  match t with
  | [] => []
  | Executed q _ _ :: rest => q :: executed rest
  | _ :: rest => executed rest
  end.

(** An event that carries no error: a statement that returned, or a
    [console.log] line. *)
Definition quiet {S E} (ev : event S E) : bool :=
  match ev with
  | Executed _ _ None => true
  | Executed _ _ (Some _) => false
  | ConsoleLog _ => true
  | ConsoleError _ => false
  end.

(** An [Executed] event tells the truth: what it says was thrown is what
    [execute] does on the database it names. *)
Definition faithful {S E} `{Database S E} (ev : event S E) : Prop :=
  match ev with
  | Executed q on thrown =>
      thrown = match snd (execute q on) with inl e => Some e | inr _ => None end
  | _ => True
  end.

End Routine.

(* ------------------------------------------------------------------ *)
(** ** The database the statements run against *)

Module Pg.
Import Routine.

(** A row of ["user"]: the two columns the routine names. *)
Record User : Type := { id : string; email : string }.

(** A row of ["workspace_member"]: the two columns the routine names (a SQL
    NULL is [None]) and, in [other], the columns it never names. *)
Record WorkspaceMember : Type :=
  { other : list (string * option string);
    user_email : option string;
    user_id : option string }.

(** The columns of a table named ["workspace_member"] in another schema.
    The statements name the table without a schema, so they act on the one
    the search path gives; but [information_schema.columns], which the probe
    of lines 16-21 and the DO block of lines 30-34 read with a filter on
    [table_name] only, lists the columns of every visible table of that
    name. *)
Record Columns : Type := { with_user_email : bool; with_user_id : bool }.

(** The database: the rows of both tables, which of the two columns
    ["workspace_member"] has, and, in [elsewhere], the tables of the same
    name in other schemas.  The field of a column the table lacks is never
    read (a statement that names such a column fails before it looks at a
    row, and the ALTER TABLE of line 35 fills the new column with NULL); by
    convention it holds [None].  Both tables exist.  The source file
    declares no constraint, default or trigger on them, and none is modelled:
    in particular two users may share an email. *)
Record Db : Type :=
  { user : list User;
    has_user_email : bool;
    has_user_id : bool;
    workspace_member : list WorkspaceMember;
    elsewhere : list Columns }.

(** The two errors these statements can raise on such a database
    (SQLSTATE 42703 and 21000). *)
Inductive Error : Type :=
| undefined_column
| cardinality_violation.

Definition WorkspaceMember_eq_dec (a b : WorkspaceMember) : {a = b} + {a <> b}.
Proof. repeat decide equality. Defined.
Arguments WorkspaceMember_eq_dec : simpl never.

Definition set_user_id (v : option string) (r : WorkspaceMember) : WorkspaceMember :=
  {| other := other r; user_email := user_email r; user_id := v |}.

Definition set_workspace_member (rows : list WorkspaceMember) (d : Db) : Db :=
  {| user := user d;
     has_user_email := has_user_email d;
     has_user_id := has_user_id d;
     workspace_member := rows;
     elsewhere := elsewhere d |}.

Definition is_null (v : option string) : bool :=
  match v with None => true | Some _ => false end.

(** ["user_id" IS NULL AND "user_email" IS NOT NULL] (lines 48, 55, 68). *)
Definition where_orphaned (r : WorkspaceMember) : bool :=
  is_null (user_id r) && negb (is_null (user_email r)).

(** ["user_id" IS NULL AND ("user_email" IS NULL OR "user_email" = '')]
    (lines 76, 86). *)
Definition where_null_record (r : WorkspaceMember) : bool :=
  is_null (user_id r) &&
  match user_email r with
  | None => true
  | Some e => String.eqb e EmptyString
  end.

(** ["user_id" IS NULL] (lines 97, 107). *)
Definition where_null_user_id (r : WorkspaceMember) : bool :=
  is_null (user_id r).

(** [(SELECT u.id FROM "user" u WHERE u.email = e)] used as a value: NULL
    when no user matches, the id when one does, an error when several do. *)
Definition select_user_id (users : list User) (e : string) : Error + option string :=
  match filter (fun u => String.eqb (email u) e) users with
  | [] => inr None
  | [u] => inr (Some (id u))
  | _ :: _ :: _ => inl cardinality_violation
  end.

(** The UPDATE of lines 41-49, row by row; an error leaves nothing
    updated. *)
Fixpoint update_user_id (users : list User) (rows : list WorkspaceMember)
  : Error + list WorkspaceMember :=
  match rows with
  | [] => inr []
  | r :: rest =>
      match user_id r, user_email r with
      | None, Some e =>
          match select_user_id users e with
          | inl err => inl err
          | inr v =>
              match update_user_id users rest with
              | inl err => inl err
              | inr rest' => inr (set_user_id v r :: rest')
              end
          end
      | _, _ =>
          match update_user_id users rest with
          | inl err => inl err
          | inr rest' => inr (r :: rest')
          end
      end
  end.

(** The single row [{ count: "n" }] of a [SELECT COUNT( * ) as count]: the
    driver returns a bigint as its decimal text. *)
Definition count_result (n : nat) : QueryResult :=
  {| rows := [[("count", JS.str (NilEmpty.string_of_uint (N.to_uint (N.of_nat n))))]] |}.

Definition no_rows : QueryResult := {| rows := [] |}.

(** The number of rows a WHERE clause matches. *)
Definition tally (p : WorkspaceMember -> bool) (rows : list WorkspaceMember) : nat :=
  length (filter p rows).

(** The rows a WHERE clause does not match. *)
Definition sweep (p : WorkspaceMember -> bool) (rows : list WorkspaceMember)
  : list WorkspaceMember :=
  filter (fun r => negb (p r)) rows.

(** [SELECT COUNT( * ) as count FROM "workspace_member" WHERE p]. *)
Definition select_count (p : WorkspaceMember -> bool) (d : Db) : Db * (Error + QueryResult) :=
  (d, inr (count_result (tally p (workspace_member d)))).

(** [DELETE FROM "workspace_member" WHERE p]. *)
Definition delete_where (p : WorkspaceMember -> bool) (d : Db) : Db * (Error + QueryResult) :=
  (set_workspace_member (sweep p (workspace_member d)) d, inr no_rows).

(** A statement naming a column the table lacks fails and changes nothing. *)
Definition needing (columns : bool) (d : Db) (run : Db -> Db * (Error + QueryResult))
  : Db * (Error + QueryResult) :=
  if columns then run d else (d, inl undefined_column).

(** The rows of the probe of lines 16-21: one for each table named
    ["workspace_member"], in any schema, that has a [user_email] column. *)
Definition user_email_columns (d : Db) : list JS.object :=
  (if has_user_email d then [[("column_name", JS.str "user_email")]] else [])
  ++ map (fun _ => [("column_name", JS.str "user_email")])
       (filter with_user_email (elsewhere d)).

(** The EXISTS of lines 30-34: some table named ["workspace_member"], in any
    schema, has a [user_id] column. *)
Definition some_user_id_column (d : Db) : bool :=
  has_user_id d || existsb with_user_id (elsewhere d).

(** The meaning of each statement. *)
Definition pg_execute (q : statement) (d : Db) : Db * (Error + QueryResult) :=
  match q with
  | SelectUserEmailColumn =>
      (d, inr {| rows := user_email_columns d |})
  | AddUserIdColumn =>
      (if some_user_id_column d then d
       else {| user := user d;
               has_user_email := has_user_email d;
               has_user_id := true;
               workspace_member := map (set_user_id None) (workspace_member d);
               elsewhere := elsewhere d |},
       inr no_rows)
  | UpdateUserId =>
      needing (has_user_id d && has_user_email d) d (fun d =>
        match update_user_id (user d) (workspace_member d) with
        | inl err => (d, inl err)
        | inr rows' => (set_workspace_member rows' d, inr no_rows)
        end)
  | CountOrphaned =>
      needing (has_user_id d && has_user_email d) d (select_count where_orphaned)
  | DeleteOrphaned =>
      needing (has_user_id d && has_user_email d) d (delete_where where_orphaned)
  | CountNullRecords =>
      needing (has_user_id d && has_user_email d) d (select_count where_null_record)
  | DeleteNullRecords =>
      needing (has_user_id d && has_user_email d) d (delete_where where_null_record)
  | CountNullUserIds =>
      needing (has_user_id d) d (select_count where_null_user_id)
  | DeleteNullUserIds =>
      needing (has_user_id d) d (delete_where where_null_user_id)
  end.

#[export] Instance postgres : Database Db Error := {| execute := pg_execute |}.

(** One call of the routine on a database. *)
Definition run (d : Db) : Db * list (event Db Error) * (Error + unit) :=
  migrateWorkspaceUserEmail d.

End Pg.

(* ------------------------------------------------------------------ *)
(** ** The priority popover *)

Module Popover.

(** The [task] prop: an object with a [priority] property among others. *)
Definition Task : Type := JS.object.

Record PriorityOption : Type := { value : string; label : string }.

(** Lines 137-143. *)
Definition priorityOptions : list PriorityOption :=
  [ {| value := "no-priority"; label := "No Priority" |};
    {| value := "low"; label := "Low" |};
    {| value := "medium"; label := "Medium" |};
    {| value := "high"; label := "High" |};
    {| value := "urgent"; label := "Urgent" |} ].

(** What a rejected [updateTask] promise carries: an [Error] instance with
    its [message], or any other value. *)
Inductive Thrown : Type :=
| ErrorInstance (message : string)
| NotAnError (v : JS.value).

(** What the handler does to the outside, in order. *)
Inductive effect : Type :=
| UpdateTask (payload : JS.object)   (* updateTask(payload) *)
| SetOpen (b : bool)                 (* setOpen(b) *)
| ToastError (text : string).        (* toast.error(text) *)

Section Handler.
(** [mutateAsync] of [useUpdateTask]: resolves with some data or rejects. *)
Variable updateTask : JS.object -> Thrown + JS.value.

(** Lines 152-166, from the [open] state at the time of the click to the
    [open] state afterwards. *)
Definition handlePriorityChange (task : Task) (is_open : bool) (newPriority : string)
  : bool * list effect :=
  let payload := JS.set "priority" (JS.str newPriority) task in
  match updateTask payload with
  | inr _ => (false, [UpdateTask payload; SetOpen false])
  | inl error =>
      (is_open,
       [UpdateTask payload;
        ToastError
          match error with
          | ErrorInstance message => message
          | NotAnError _ => "Failed to update task priority"
          end])
  end.
End Handler.

(** One rendered [Button] (lines 174-186): its key, the argument of
    [getPriorityIcon], its text, whether [Check] is rendered, and the
    argument its [onClick] passes to [handlePriorityChange]. *)
Record Button : Type :=
  { key : string;
    icon : string;
    text : string;
    check : bool;
    onClick : string }.

(** Lines 173-187. *)
Definition TaskPriorityPopover (task : Task) : list Button :=
  map (fun priority =>
         {| key := value priority;
            icon := value priority;
            text := label priority;
            check := JS.strict_eq (JS.get task "priority") (JS.str (value priority));
            onClick := value priority |})
      priorityOptions.

End Popover.

(* ------------------------------------------------------------------ *)
(** ** Closed forms used in the proofs *)

Module Closed.
Import Routine Pg.

(** The events of one count-then-delete block on the database [d]. *)
Definition guarded (count delete : statement) (p : WorkspaceMember -> bool)
  (msg : JS.value -> message) (after : list (event Db Error)) (d : Db)
  : list (event Db Error) :=
  Executed count d None ::
  (if (0 <? tally p (workspace_member d))%nat
   then ConsoleLog (msg (count_of (count_result (tally p (workspace_member d)))))
        :: Executed delete d None :: after
   else []).

(** The database after line 38. *)
Definition with_user_id_column (d : Db) : Db := fst (pg_execute AddUserIdColumn d).

(** The probe of lines 16-21 returns a row. *)
Definition legacy_found (d : Db) : bool :=
  has_user_email d || existsb with_user_email (elsewhere d).

(** The whole run, branch by branch. *)
Definition run_closed (d : Db) : Db * list (event Db Error) * (Error + unit) :=
  if legacy_found d then
    let d1 := with_user_id_column d in
    if negb (has_user_id d1 && has_user_email d1) then
      (d1,
       [ConsoleLog Checking; Executed SelectUserEmailColumn d None;
        ConsoleLog FoundUserEmailColumn; Executed AddUserIdColumn d None;
        Executed UpdateUserId d1 (Some undefined_column);
        ConsoleError undefined_column],
       inl undefined_column)
    else
    match update_user_id (user d1) (workspace_member d1) with
    | inl err =>
        (d1,
         [ConsoleLog Checking; Executed SelectUserEmailColumn d None;
          ConsoleLog FoundUserEmailColumn; Executed AddUserIdColumn d None;
          Executed UpdateUserId d1 (Some err); ConsoleError err],
         inl err)
    | inr rows2 =>
        let d2 := set_workspace_member rows2 d1 in
        let d3 := set_workspace_member (sweep where_orphaned rows2) d1 in
        let d4 :=
          set_workspace_member
            (sweep where_null_record (sweep where_orphaned rows2)) d1 in
        (d4,
         [ConsoleLog Checking; Executed SelectUserEmailColumn d None;
          ConsoleLog FoundUserEmailColumn; Executed AddUserIdColumn d None;
          Executed UpdateUserId d1 None]
         ++ guarded CountOrphaned DeleteOrphaned where_orphaned
              FoundInvalidUserEmail [] d2
         ++ guarded CountNullRecords DeleteNullRecords where_null_record
              FoundNoUserIdentification [] d3
         ++ [ConsoleLog MigratedUserEmail; Executed CountNullUserIds d4 None;
             ConsoleLog Completed],
         inr tt)
    end
  else if has_user_id d then
    (set_workspace_member (sweep where_null_user_id (workspace_member d)) d,
     [ConsoleLog Checking; Executed SelectUserEmailColumn d None]
     ++ guarded CountNullUserIds DeleteNullUserIds where_null_user_id
          FoundNullUserId [ConsoleLog RemovedNullUserId] d
     ++ [ConsoleLog Completed],
     inr tt)
  else
    (d,
     [ConsoleLog Checking; Executed SelectUserEmailColumn d None;
      Executed CountNullUserIds d (Some undefined_column);
      ConsoleError undefined_column],
     inl undefined_column).

End Closed.

(* ------------------------------------------------------------------ *)
(** ** Sample databases *)

Module Samples.
Import Routine Pg.

Definition alice : User := {| id := "u1"; email := "alice@example.com" |}.
Definition bob : User := {| id := "u2"; email := "bob@example.com" |}.

Definition member (key : string) (e i : option string) : WorkspaceMember :=
  {| other := [("id", Some key)]; user_email := e; user_id := i |}.

(** A table from before the change of key: emails only, no [user_id]
    column.  One member resolves, one names nobody, one has no email. *)
Definition legacy_db : Db :=
  {| user := [alice; bob];
     has_user_email := true;
     has_user_id := false;
     workspace_member :=
       [ member "m1" (Some "alice@example.com") None;
         member "m2" (Some "carol@example.com") None;
         member "m3" None None ];
     elsewhere := [] |}.

(** Both columns, one member already reconciled. *)
Definition mixed_db : Db :=
  {| user := [alice; bob];
     has_user_email := true;
     has_user_id := true;
     workspace_member :=
       [ member "m1" (Some "alice@example.com") (Some "u1");
         member "m2" (Some "bob@example.com") None;
         member "m3" (Some "carol@example.com") None;
         member "m4" None None ];
     elsewhere := [] |}.

(** Already migrated: no [user_email] column. *)
Definition migrated_db : Db :=
  {| user := [alice; bob];
     has_user_email := false;
     has_user_id := true;
     workspace_member :=
       [ member "m1" None (Some "u1");
         member "m2" None None ];
     elsewhere := [] |}.

(** Neither column. *)
Definition bare_db : Db :=
  {| user := [alice];
     has_user_email := false;
     has_user_id := false;
     workspace_member := [ member "m1" None None ];
     elsewhere := [] |}.

(** A member whose email is the empty string, and no user. *)
Definition empty_email_db : Db :=
  {| user := [];
     has_user_email := true;
     has_user_id := true;
     workspace_member := [ member "m1" (Some EmptyString) None ];
     elsewhere := [] |}.

(** The same member, and a user whose email is the empty string. *)
Definition empty_email_user_db : Db :=
  {| user := [ {| id := "u0"; email := EmptyString |} ];
     has_user_email := true;
     has_user_id := true;
     workspace_member := [ member "m1" (Some EmptyString) None ];
     elsewhere := [] |}.

(** Two users with one email, and a member carrying it. *)
Definition shared_email_db : Db :=
  {| user := [alice; {| id := "u3"; email := "alice@example.com" |}];
     has_user_email := true;
     has_user_id := true;
     workspace_member :=
       [ member "m1" (Some "alice@example.com") None;
         member "m2" None None ];
     elsewhere := [] |}.


(** A migrated table, and a table of the same name in another schema that
    still has [user_email]. *)
Definition shadowed_migrated_db : Db :=
  {| user := [alice; bob];
     has_user_email := false;
     has_user_id := true;
     workspace_member :=
       [ member "m1" None (Some "u1");
         member "m2" None None ];
     elsewhere := [ {| with_user_email := true; with_user_id := false |} ] |}.

(** A task whose priority is ["low"]. *)
Definition low_task : Popover.Task :=
  [("id", JS.str "t1"); ("priority", JS.str "low");
   ("title", JS.str "Write the report")].

End Samples.

(* ------------------------------------------------------------------ *)
(** ** Readings of a trace *)

Module Reading.
Import Routine.

(** Where a statement stands in the source text. *)
Definition position (q : statement) : nat :=
  match q with
  | SelectUserEmailColumn => 0
  | AddUserIdColumn => 1
  | UpdateUserId => 2
  | CountOrphaned => 3
  | DeleteOrphaned => 4
  | CountNullRecords => 5
  | DeleteNullRecords => 6
  | CountNullUserIds => 7
  | DeleteNullUserIds => 8
  end.

(** In the trace [t], every execution of [delete] runs on the database that
    an execution of [count] left, and that count returned a result that
    passes the test of lines 58-61, 79 and 100. *)
Definition guards {S E} `{Database S E} (count delete : statement)
  (t : list (event S E)) : Prop :=
  forall on thrown,
    In (Executed delete on thrown) t ->
    exists on0 r,
      In (Executed count on0 None) t /\
      execute count on0 = (on, inr r) /\
      count_is_positive r = true.

(** The database hands over every count as the decimal text of a number,
    which is how node-postgres returns the bigint of a [COUNT( * )]. *)
Definition counts_as_digits {S E} `{Database S E} : Prop :=
  forall q on on' r,
    execute q on = (on', inr r) ->
    q = CountOrphaned \/ q = CountNullRecords \/ q = CountNullUserIds ->
    exists digits n,
      count_of r = JS.str digits /\ NilEmpty.uint_of_string digits = Some n.

(** In the trace [t], every execution of [delete] runs on the database that
    an execution of [count] left, and that count returned the decimal text
    of a number greater than zero. *)
Definition guards_positive {S E} `{Database S E} (count delete : statement)
  (t : list (event S E)) : Prop :=
  forall on thrown,
    In (Executed delete on thrown) t ->
    exists on0 r digits n,
      In (Executed count on0 None) t /\
      execute count on0 = (on, inr r) /\
      count_of r = JS.str digits /\
      NilEmpty.uint_of_string digits = Some n /\
      (0 < N.of_uint n)%N.

End Reading.

(* ------------------------------------------------------------------ *)
(** ** Facts about the JavaScript layer *)

Lemma get_set_same (o : JS.object) (k : string) (v : JS.value) :
  JS.get (JS.set k v o) k = v.
Proof.
  induction o as [|[k' v'] rest IH]; simpl.
  - now rewrite String.eqb_refl.
  - destruct (String.eqb k' k) eqn:Hk; simpl.
    + now rewrite String.eqb_refl.
    + now rewrite Hk.
Qed.

Lemma get_set_other (o : JS.object) (k k2 : string) (v : JS.value) :
  k2 <> k -> JS.get (JS.set k v o) k2 = JS.get o k2.
Proof.
  intros Hne. induction o as [|[k' v'] rest IH]; simpl.
  - destruct (String.eqb k k2) eqn:Hk; [|reflexivity].
    apply String.eqb_eq in Hk. congruence.
  - destruct (String.eqb k' k) eqn:Hk; simpl.
    + apply String.eqb_eq in Hk. subst k'.
      destruct (String.eqb k k2) eqn:Hk2; [|reflexivity].
      apply String.eqb_eq in Hk2. congruence.
    + now rewrite IH.
Qed.

Lemma strict_eq_str (a : JS.value) (s : string) :
  JS.strict_eq a (JS.str s) = true <-> a = JS.str s.
Proof.
  destruct a; simpl; split; try discriminate; intros H.
  - apply String.eqb_eq in H. now subst.
  - injection H as ->. apply String.eqb_refl.
Qed.

(** The decimal text of a number is never empty. *)
Lemma decimal_text_nonempty (m : N) :
  NilEmpty.string_of_uint (N.to_uint m) <> EmptyString.
Proof.
  intros H.
  pose proof (NilEmpty.usu (N.to_uint m)) as Hu. rewrite H in Hu.
  simpl in Hu. injection Hu as Hu.
  pose proof (DecimalN.Unsigned.of_to m) as Hm. rewrite <- Hu in Hm.
  simpl in Hm. subst m. discriminate Hu.
Qed.

(** The test of lines 58-61, 79 and 100 on what [COUNT( * )] returns. *)
Lemma count_positive (n : nat) :
  Routine.count_is_positive (Pg.count_result n) = (0 <? n)%nat.
Proof.
  unfold Routine.count_is_positive, Routine.count_of, Pg.count_result. simpl.
  destruct (String.eqb _ EmptyString) eqn:He.
  - apply String.eqb_eq in He. now apply decimal_text_nonempty in He.
  - simpl. rewrite NilEmpty.usu, DecimalN.Unsigned.of_to. simpl.
    destruct n; simpl; [reflexivity|].
    now destruct (N.of_nat (S n)) eqn:Hn.
Qed.

(* ------------------------------------------------------------------ *)
(** ** The run in closed form *)

Import Routine Pg Closed Samples Reading.

Lemma sweep_nothing (p : WorkspaceMember -> bool) (rows : list WorkspaceMember) :
  tally p rows = 0%nat -> sweep p rows = rows.
Proof.
  unfold tally, sweep. induction rows as [|r rest IH]; simpl; [reflexivity|].
  destruct (p r); simpl; [discriminate|]. intros H. now rewrite IH.
Qed.

Lemma set_workspace_member_same (d : Db) :
  set_workspace_member (workspace_member d) d = d.
Proof. now destruct d. Qed.

(** Splits on whether a count found a row; a count of zero leaves the rows
    as they are. *)
Ltac count_cases p rows Hz Hs :=
  let Hn := fresh "Hn" in
  destruct (0 <? tally p rows)%nat eqn:Hn;
  [| apply Nat.ltb_ge in Hn;
     assert (tally p rows = 0%nat) as Hz by lia;
     pose proof (sweep_nothing p rows Hz) as Hs ].

Ltac run_step :=
  unfold bind, try_catch, when, db_execute, console_log, console_error,
    ret, throw, needing, select_count, delete_where; simpl.

Lemma null_user_id_cases (r : WorkspaceMember) :
  where_null_user_id r = where_orphaned r || where_null_record r.
Proof.
  unfold where_null_user_id, where_orphaned, where_null_record.
  destruct (user_id r), (user_email r); reflexivity.
Qed.

Lemma no_null_user_id_left (rows : list WorkspaceMember) :
  tally where_null_user_id
    (sweep where_null_record (sweep where_orphaned rows)) = 0%nat.
Proof.
  unfold tally, sweep. induction rows as [|r rest IH]; simpl; [reflexivity|].
  pose proof (null_user_id_cases r) as Hr.
  destruct (where_orphaned r) eqn:Ho; simpl; [exact IH|].
  destruct (where_null_record r) eqn:Hn; simpl; [exact IH|].
  rewrite Hr. exact IH.
Qed.

Lemma probe_found (d : Db) :
  (0 <? length (user_email_columns d))%nat = legacy_found d.
Proof.
  unfold user_email_columns, legacy_found.
  destruct (has_user_email d); [reflexivity|]. simpl.
  induction (elsewhere d) as [|c rest IH]; simpl; [reflexivity|].
  now destruct (with_user_email c).
Qed.

Lemma run_eq (d : Db) : run d = run_closed d.
Proof.
  unfold run, run_closed, migrateWorkspaceUserEmail, final_sweep, legacy_branch.
  unfold with_user_id_column, guarded.
  run_step. rewrite probe_found.
  destruct (legacy_found d) eqn:Hfound; simpl.
  - set (d1 := if some_user_id_column d then d else _).
    destruct (has_user_id d1 && has_user_email d1) eqn:Hcols; simpl;
      [|reflexivity].
    apply andb_true_iff in Hcols. destruct Hcols as [Hid1 Hue1].
    destruct (update_user_id (user d1) (workspace_member d1)) as [err|rows2] eqn:Hup;
      simpl; [reflexivity|].
    rewrite Hid1, Hue1. simpl.
    rewrite count_positive.
    pose proof (no_null_user_id_left rows2) as Hnone.
    count_cases where_orphaned rows2 Hz1 Hs1;
      [| rewrite Hs1 in Hnone |- *; clear Hs1 ];
      repeat (run_step; rewrite ?Hid1, ?Hue1, ?count_positive; simpl);
      match goal with
      | |- context [tally where_null_record ?rows3] =>
          count_cases where_null_record rows3 Hz2 Hs2;
          [| rewrite Hs2 in Hnone |- *; clear Hs2 ];
          repeat (run_step; rewrite ?Hid1, ?Hue1, ?count_positive; simpl)
      end;
      rewrite ?Hnone; reflexivity.
  - destruct (has_user_id d) eqn:Hid; simpl; [|reflexivity].
    rewrite count_positive.
    count_cases where_null_user_id (workspace_member d) Hz Hs; simpl.
    + rewrite Hid. reflexivity.
    + now rewrite Hs, set_workspace_member_same.
Qed.

(* ------------------------------------------------------------------ *)
(** ** Errors, over any database *)

Section AnyDatabase.
Context {S E : Type} `{Database S E}.

(** The shape of every run: either it returns and nothing in it failed, or
    it throws [e] and its trace ends with the statement that threw [e] and
    the [console.error] of [e]; no statement is executed twice. *)
Lemma run_shape (s : S) :
  NoDup (executed (trace (migrateWorkspaceUserEmail s))) /\
  match outcome (migrateWorkspaceUserEmail s) with
  | inl e =>
      exists pre q on,
        trace (migrateWorkspaceUserEmail s)
        = pre ++ [Executed q on (Some e); ConsoleError e] /\
        forallb quiet pre = true
  | inr _ => forallb quiet (trace (migrateWorkspaceUserEmail s)) = true
  end.
Proof.
  unfold migrateWorkspaceUserEmail, legacy_branch, final_sweep, trace, outcome.
  unfold bind, try_catch, when, db_execute, console_log, console_error, ret, throw.
  repeat
    (simpl;
     match goal with
     | |- context [execute ?q ?s] =>
         let e := fresh "e" in
         let r := fresh "r" in
         destruct (execute q s) as [? [e|r]]
     | |- context [if ?c then _ else _] => destruct c
     end);
  simpl;
  (split;
   [ repeat constructor; simpl; intuition discriminate
   | try reflexivity;
     match goal with
     | |- exists pre q on, ?t = _ /\ _ =>
         exists (firstn (length t - 2) t); simpl;
         do 2 eexists; split; reflexivity
     end ]).
Qed.

(** What a trace records of a [db.execute] call is what [execute] did on
    the database recorded with it. *)
Lemma trace_faithful (s : S) :
  Forall faithful (trace (migrateWorkspaceUserEmail s)).
Proof.
  unfold migrateWorkspaceUserEmail, legacy_branch, final_sweep, trace.
  unfold bind, try_catch, when, db_execute, console_log, console_error, ret, throw.
  repeat
    (simpl;
     match goal with
     | |- context [let (_, _) := execute ?q ?s in _] =>
         let e := fresh "e" in
         let r := fresh "r" in
         destruct (execute q s) as [? [e|r]] eqn:?
     | |- context [if ?c then _ else _] => destruct c
     end);
  simpl;
  repeat (constructor; simpl;
          try match goal with
              | Hx : execute ?q ?s = _ |- context [execute ?q ?s] => rewrite Hx
              end;
          try reflexivity).
Qed.

(** C7.  Whenever a [db.execute] call of the routine throws [e], the routine
    throws that same [e]; the call is the last statement of the trace and
    is followed by exactly the [console.error] of [e], everything before it
    having succeeded.  No statement is executed twice in a run, and a run
    that returns returns no value ([tt]) after a trace without error. *)
Theorem error_is_logged_and_rethrown (s : S) :
  (forall q on e,
      In (Executed q on (Some e)) (trace (migrateWorkspaceUserEmail s)) ->
      snd (execute q on) = inl e /\
      outcome (migrateWorkspaceUserEmail s) = inl e /\
      exists pre,
        trace (migrateWorkspaceUserEmail s)
        = pre ++ [Executed q on (Some e); ConsoleError e] /\
        forallb quiet pre = true) /\
  NoDup (executed (trace (migrateWorkspaceUserEmail s))) /\
  (forall v,
      outcome (migrateWorkspaceUserEmail s) = inr v ->
      v = tt /\ forallb quiet (trace (migrateWorkspaceUserEmail s)) = true).
Proof.
  destruct (run_shape s) as [Hnd Hshape].
  pose proof (trace_faithful s) as Hf.
  split; [|split; [exact Hnd|]].
  - intros q on e Hin. split.
    + rewrite Forall_forall in Hf. specialize (Hf _ Hin). simpl in Hf.
      destruct (snd (execute q on)); congruence.
    + destruct (outcome (migrateWorkspaceUserEmail s)) as [e0|v].
      * destruct Hshape as (pre & q0 & on0 & Ht & Hq).
        rewrite Ht in Hin. apply in_app_or in Hin. destruct Hin as [Hin|Hin].
        -- rewrite forallb_forall in Hq. apply Hq in Hin. discriminate Hin.
        -- destruct Hin as [Heq|[Heq|[]]]; [|discriminate Heq].
           injection Heq as -> -> ->. split; [reflexivity|].
           exists pre. now split.
      * rewrite forallb_forall in Hshape. apply Hshape in Hin. discriminate Hin.
  - intros v Hv. rewrite Hv in Hshape. now destruct v.
Qed.

End AnyDatabase.

Lemma error_is_logged_and_rethrown_witness :
  outcome (run bare_db) = inl undefined_column.
Proof.
  apply (proj1 (error_is_logged_and_rethrown bare_db)
           CountNullUserIds bare_db undefined_column).
  vm_compute. auto.
Defined.

(* ------------------------------------------------------------------ *)
(** ** Rows, statement by statement *)

Lemma in_sweep (p : WorkspaceMember -> bool) (rows : list WorkspaceMember)
  (r : WorkspaceMember) :
  In r (sweep p rows) <-> In r rows /\ p r = false.
Proof.
  unfold sweep. rewrite filter_In. now rewrite negb_true_iff.
Qed.

Lemma tally_zero (p : WorkspaceMember -> bool) (rows : list WorkspaceMember) :
  tally p rows = 0%nat <-> forall r, In r rows -> p r = false.
Proof.
  unfold tally. induction rows as [|r rest IH]; simpl.
  - split; [intros _ r []|reflexivity].
  - destruct (p r) eqn:Hp; simpl.
    + split; [discriminate|]. intros Hall.
      rewrite (Hall r) in Hp by now left. discriminate.
    + rewrite IH. split.
      * intros Hall r' [<-|Hin]; [exact Hp|now apply Hall].
      * intros Hall r' Hin. apply Hall. now right.
Qed.

Lemma tally_positive (p : WorkspaceMember -> bool) (rows : list WorkspaceMember)
  (r : WorkspaceMember) :
  In r rows -> p r = true -> (0 <? tally p rows)%nat = true.
Proof.
  intros Hin Hp. apply Nat.ltb_lt.
  destruct (tally p rows) eqn:Ht; [|lia].
  rewrite tally_zero in Ht. rewrite (Ht r Hin) in Hp. discriminate.
Qed.

(** What the subquery of line 43 yields for the email of an existing user,
    when it yields anything. *)
Lemma select_user_id_of_user (users : list User) (u : User) (v : option string) :
  In u users -> select_user_id users (email u) = inr v -> v = Some (id u).
Proof.
  unfold select_user_id. intros Hin Hsel.
  assert (In u (filter (fun u' => String.eqb (email u') (email u)) users)) as Hf
    by (apply filter_In; split; [exact Hin|apply String.eqb_refl]).
  destruct (filter _ users) as [|u1 [|u2 rest]]; [destruct Hf| |discriminate].
  destruct Hf as [->|[]]. now injection Hsel as <-.
Qed.


(** The UPDATE, row by row: a row it targets comes out with the value of
    its subquery, any other row comes out as it went in. *)
Lemma update_user_id_in (users : list User) (rows rows2 : list WorkspaceMember)
  (r : WorkspaceMember) :
  update_user_id users rows = inr rows2 ->
  In r rows ->
  match user_id r, user_email r with
  | None, Some e =>
      exists v, select_user_id users e = inr v /\ In (set_user_id v r) rows2
  | _, _ => In r rows2
  end.
Proof.
  revert rows2. induction rows as [|r0 rest IH]; intros rows2 Hup Hin.
  - destruct Hin.
  - simpl in Hup.
    assert (forall rest', update_user_id users rest = inr rest' ->
              match user_id r, user_email r with
              | None, Some e =>
                  exists v, select_user_id users e = inr v /\
                            In (set_user_id v r) rest'
              | _, _ => In r rest'
              end \/ r = r0) as Hrest.
    { intros rest' Hr. destruct Hin as [->|Hin]; [now right|left].
      now apply IH. }
    destruct (user_id r0) as [i0|] eqn:Hi0.
    + destruct (update_user_id users rest) as [|rest'] eqn:Hr; [discriminate|].
      injection Hup as <-. destruct (Hrest rest' eq_refl) as [Hm| ->].
      * destruct (user_id r), (user_email r);
          try (destruct Hm as (v & ? & ?); exists v; split; [assumption|]);
          now right.
      * rewrite Hi0. now left.
    + destruct (user_email r0) as [e0|] eqn:He0.
      * destruct (select_user_id users e0) as [|v0] eqn:Hs; [discriminate|].
        destruct (update_user_id users rest) as [|rest'] eqn:Hr; [discriminate|].
        injection Hup as <-. destruct (Hrest rest' eq_refl) as [Hm| ->].
        -- destruct (user_id r), (user_email r);
             try (destruct Hm as (v & ? & ?); exists v; split; [assumption|]);
             now right.
        -- rewrite Hi0, He0. exists v0. split; [exact Hs|now left].
      * destruct (update_user_id users rest) as [|rest'] eqn:Hr; [discriminate|].
        injection Hup as <-. destruct (Hrest rest' eq_refl) as [Hm| ->].
        -- destruct (user_id r), (user_email r);
             try (destruct Hm as (v & ? & ?); exists v; split; [assumption|]);
             now right.
        -- rewrite Hi0, He0. now left.
Qed.

(** The UPDATE leaves a table without targets as it is. *)
Lemma update_user_id_nothing (users : list User) (rows : list WorkspaceMember) :
  tally where_orphaned rows = 0%nat -> update_user_id users rows = inr rows.
Proof.
  rewrite tally_zero. induction rows as [|r rest IH]; intros Hall; [reflexivity|].
  simpl. rewrite IH by (intros r' Hin; apply Hall; now right).
  pose proof (Hall r (or_introl eq_refl)) as Hr. unfold where_orphaned in Hr.
  destruct (user_id r), (user_email r); try reflexivity. discriminate Hr.
Qed.

Lemma with_user_id_column_flags (d : Db) :
  has_user_email (with_user_id_column d) = has_user_email d /\
  user (with_user_id_column d) = user d /\
  elsewhere (with_user_id_column d) = elsewhere d.
Proof.
  unfold with_user_id_column. simpl. now destruct (some_user_id_column d).
Qed.

Lemma with_user_id_column_id (d : Db) :
  has_user_id (with_user_id_column d)
  = has_user_id d || negb (existsb with_user_id (elsewhere d)).
Proof.
  unfold with_user_id_column. simpl. unfold some_user_id_column.
  destruct (has_user_id d) eqn:Hid; cbn [orb negb]; [exact Hid|].
  destruct (existsb with_user_id (elsewhere d)); simpl; [exact Hid|reflexivity].
Qed.

Lemma with_user_id_column_present (d : Db) :
  has_user_id d = true -> with_user_id_column d = d.
Proof.
  unfold with_user_id_column. simpl. unfold some_user_id_column. now intros ->.
Qed.

Lemma legacy_found_of_column (d : Db) :
  has_user_email d = true -> legacy_found d = true.
Proof. unfold legacy_found. now intros ->. Qed.

(** The two ways into the UPDATE of lines 41-49: the table has both columns
    when it runs, or it stops there on a missing column. *)
Ltac legacy_cases Hid1 Hue1 Hcols :=
  match goal with
  | |- context [negb (has_user_id ?d1 && has_user_email ?d1)] =>
      destruct (has_user_id d1 && has_user_email d1) eqn:Hcols
  | Hx : context [negb (has_user_id ?d1 && has_user_email ?d1)] |- _ =>
      destruct (has_user_id d1 && has_user_email d1) eqn:Hcols
  end;
  cbn [negb] in *;
  [ pose proof (proj1 (andb_true_iff _ _) Hcols) as [Hid1 Hue1] | ].

(** A row without user id is in the table after line 38 as it was before. *)
Lemma with_user_id_column_in (d : Db) (r : WorkspaceMember) :
  In r (workspace_member d) -> user_id r = None ->
  In r (workspace_member (with_user_id_column d)).
Proof.
  unfold with_user_id_column. simpl. intros Hin Hnull.
  destruct (some_user_id_column d); [exact Hin|]. simpl.
  apply in_map_iff. exists r. split; [|exact Hin].
  destruct r. simpl in *. now subst.
Qed.

Lemma where_null_user_id_false (r : WorkspaceMember) :
  where_null_user_id r = false <-> user_id r <> None.
Proof.
  unfold where_null_user_id. destruct (user_id r); simpl; split; congruence.
Qed.

Lemma tally_sweep (p : WorkspaceMember -> bool) (rows : list WorkspaceMember) :
  tally p (sweep p rows) = 0%nat.
Proof.
  apply tally_zero. intros r Hin. now apply in_sweep in Hin.
Qed.

(** After a run that returns, the table has the [user_id] column and no
    NULL in it. *)
Lemma completed_run (d d' : Db) (t : list (event Db Error)) :
  run d = (d', t, inr tt) ->
  has_user_id d' = true /\
  tally where_null_user_id (workspace_member d') = 0%nat.
Proof.
  rewrite run_eq. unfold run_closed. intros Hrun.
  destruct (legacy_found d).
  - legacy_cases Hid1 Hue1 Hcols; [|discriminate].
    destruct (update_user_id _ _); [discriminate|].
    injection Hrun as <- _. simpl. split; [exact Hid1|apply no_null_user_id_left].
  - destruct (has_user_id d) eqn:Hid; [|discriminate].
    injection Hrun as <- _. simpl. split; [exact Hid|apply tally_sweep].
Qed.

Lemma completed_run_rows (d d' : Db) (t : list (event Db Error)) (r : WorkspaceMember) :
  run d = (d', t, inr tt) -> In r (workspace_member d') -> user_id r <> None.
Proof.
  intros Hrun Hin. destruct (completed_run d d' t Hrun) as [_ Hnone].
  rewrite tally_zero in Hnone. apply where_null_user_id_false. now apply Hnone.
Qed.

(** Membership of an event in a trace given as a list expression. *)
Ltac in_trace :=
  unfold guarded; rewrite ?in_app_iff; simpl; rewrite ?in_app_iff; simpl;
  intuition (auto; try congruence).

(* ------------------------------------------------------------------ *)
(** ** The reconciliation routine on the two tables *)

(** C1.  After a run that completes without error, ["workspace_member"] has
    a [user_id] column and no row with a NULL in it.  The count of lines
    94-98 ran on some database [on], in either branch; the rows left are
    those of [on] without the ones where [user_id] is NULL, and the DELETE
    of lines 105-108 ran on [on] if the count found any. *)
Theorem no_null_user_id_after_run (d d' : Db) (t : list (event Db Error)) :
  run d = (d', t, inr tt) ->
  has_user_id d' = true /\
  (forall r, In r (workspace_member d') -> user_id r <> None) /\
  exists on,
    In (Executed CountNullUserIds on None) t /\
    workspace_member d' = sweep where_null_user_id (workspace_member on) /\
    ((0 <? tally where_null_user_id (workspace_member on))%nat = true ->
     In (Executed DeleteNullUserIds on None) t).
Proof.
  rewrite run_eq. unfold run_closed. intros Hrun.
  destruct (legacy_found d) eqn:Hfound.
  - legacy_cases Hid1 Hue1 Hcols; [|discriminate].
    destruct (update_user_id _ _) as [err|rows2]; [discriminate|].
    injection Hrun as <- <-. simpl.
    pose proof (no_null_user_id_left rows2) as Hnone.
    split; [exact Hid1|]. split.
    + intros r Hin. apply where_null_user_id_false.
      rewrite tally_zero in Hnone. now apply Hnone.
    + exists (set_workspace_member
                (sweep where_null_record (sweep where_orphaned rows2))
                (with_user_id_column d)).
      split; [|split].
      * in_trace.
      * simpl. symmetry. now apply sweep_nothing.
      * simpl. rewrite Hnone. discriminate.
  - destruct (has_user_id d) eqn:Hid; [|discriminate].
    injection Hrun as <- <-. simpl.
    split; [exact Hid|]. split.
    + intros r Hin. apply in_sweep in Hin. now apply where_null_user_id_false.
    + exists d. unfold guarded. split; [|split].
      * in_trace.
      * reflexivity.
      * intros ->. in_trace.
Qed.

Lemma no_null_user_id_after_run_witness :
  has_user_id (final_db (run legacy_db)) = true /\
  workspace_member (final_db (run legacy_db))
  = [member "m1" (Some "alice@example.com") (Some "u1")].
Proof.
  split; [|vm_compute; reflexivity].
  refine (proj1 (no_null_user_id_after_run legacy_db
                   (final_db (run legacy_db)) (trace (run legacy_db)) _)).
  vm_compute. reflexivity.
Defined.

Lemma no_null_no_orphaned (rows : list WorkspaceMember) :
  tally where_null_user_id rows = 0%nat ->
  tally where_orphaned rows = 0%nat /\ tally where_null_record rows = 0%nat.
Proof.
  rewrite !tally_zero. intros Hall.
  split; intros r Hin; specialize (Hall r Hin);
    rewrite null_user_id_cases in Hall; now apply orb_false_iff in Hall.
Qed.

(** A database whose table has the [user_id] column and no NULL in it: the
    routine returns, and every statement it executes runs on that very
    database. *)
Lemma run_clean (d : Db) :
  has_user_id d = true ->
  legacy_found d = has_user_email d ->
  tally where_null_user_id (workspace_member d) = 0%nat ->
  run d =
  (d,
   if has_user_email d
   then [ConsoleLog Checking; Executed SelectUserEmailColumn d None;
         ConsoleLog FoundUserEmailColumn; Executed AddUserIdColumn d None;
         Executed UpdateUserId d None; Executed CountOrphaned d None;
         Executed CountNullRecords d None; ConsoleLog MigratedUserEmail;
         Executed CountNullUserIds d None; ConsoleLog Completed]
   else [ConsoleLog Checking; Executed SelectUserEmailColumn d None;
         Executed CountNullUserIds d None; ConsoleLog Completed],
   inr tt).
Proof.
  intros Hid Hfound Hnone. rewrite run_eq. unfold run_closed, guarded.
  destruct (no_null_no_orphaned _ Hnone) as [Ho Hn].
  rewrite (with_user_id_column_present d Hid), Hfound, Hid.
  rewrite (update_user_id_nothing _ _ Ho). simpl.
  rewrite (sweep_nothing _ _ Ho), (sweep_nothing _ _ Hn), (sweep_nothing _ _ Hnone).
  rewrite Ho, Hn, Hnone, set_workspace_member_same.
  now destruct (has_user_email d).
Qed.

(** After a run that returns, the probe finds a [user_email] column only
    if the table itself has one. *)
Lemma completed_run_columns (d d' : Db) (t : list (event Db Error)) :
  run d = (d', t, inr tt) -> legacy_found d' = has_user_email d'.
Proof.
  rewrite run_eq. unfold run_closed. intros Hrun.
  destruct (with_user_id_column_flags d) as (Hue & _ & Hel).
  destruct (legacy_found d) eqn:Hfound.
  - legacy_cases Hid1 Hue1 Hcols; [|discriminate].
    destruct (update_user_id _ _); [discriminate|].
    injection Hrun as <- _. unfold legacy_found. simpl. now rewrite Hue1.
  - destruct (has_user_id d); [|discriminate].
    injection Hrun as <- _. unfold legacy_found in *. simpl.
    apply orb_false_iff in Hfound. destruct Hfound as [-> ->]. reflexivity.
Qed.

Lemma with_user_id_column_twice (d : Db) :
  with_user_id_column (with_user_id_column d) = with_user_id_column d.
Proof.
  unfold with_user_id_column at 2 3. simpl. unfold some_user_id_column.
  destruct (has_user_id d || existsb with_user_id (elsewhere d)) eqn:Hsome.
  - unfold with_user_id_column. simpl. unfold some_user_id_column. now rewrite Hsome.
  - reflexivity.
Qed.

(** A statement that changes nothing on the database [d]. *)
Lemma clean_statement_changes_nothing (d : Db) (q : statement) :
  has_user_id d = true ->
  tally where_null_user_id (workspace_member d) = 0%nat ->
  q <> DeleteOrphaned -> q <> DeleteNullRecords -> q <> DeleteNullUserIds ->
  fst (pg_execute q d) = d.
Proof.
  intros Hid Hnone H1 H2 H3.
  destruct (no_null_no_orphaned _ Hnone) as [Ho Hn].
  destruct q; simpl; unfold needing, select_count, some_user_id_column;
    rewrite ?Hid; simpl;
    try reflexivity; try congruence;
    destruct (has_user_email d); simpl; try reflexivity.
  rewrite (update_user_id_nothing _ _ Ho). simpl.
  apply set_workspace_member_same.
Qed.

(** The routine never drops the [user_email] column. *)
Lemma user_email_column_kept (d : Db) :
  has_user_email (final_db (run d)) = has_user_email d.
Proof.
  rewrite run_eq. unfold run_closed, final_db.
  destruct (with_user_id_column_flags d) as (Hue1 & _ & _).
  destruct (legacy_found d).
  - destruct (negb _); [exact Hue1|].
    destruct (update_user_id _ _); exact Hue1.
  - now destruct (has_user_id d).
Qed.

(** C2.  Run the routine, then run it again on the database the first run
    left: the second run leaves that database as it found it (rows and
    columns), ends as the first did, executes no DELETE, and each statement it
    does execute changes nothing on the database it runs on.  The first run
    leaves the [user_email] column where it was, so the second run takes the
    same branch; after a first run that returned, its count of lines 94-98
    finds no row. *)
Theorem second_run_changes_nothing (d : Db) :
  has_user_email (final_db (run d)) = has_user_email d /\
  final_db (run (final_db (run d))) = final_db (run d) /\
  outcome (run (final_db (run d))) = outcome (run d) /\
  (forall q on thrown,
      In (Executed q on thrown) (trace (run (final_db (run d)))) ->
      on = final_db (run d) /\
      fst (pg_execute q on) = on /\
      q <> DeleteOrphaned /\ q <> DeleteNullRecords /\ q <> DeleteNullUserIds) /\
  (outcome (run d) = inr tt ->
   tally where_null_user_id (workspace_member (final_db (run d))) = 0%nat).
Proof.
  split; [apply user_email_column_kept|].
  destruct (run d) as [[d1 t] o] eqn:Hrun. unfold final_db, outcome, trace. simpl.
  destruct o as [err|[]].
  - (* the first run threw *)
    rewrite run_eq in Hrun. unfold run_closed in Hrun.
    assert (run d1 = (d1, trace (run d1), inl err) /\
            forall q on thrown, In (Executed q on thrown) (trace (run d1)) ->
              on = d1 /\ fst (pg_execute q on) = on /\
              q <> DeleteOrphaned /\ q <> DeleteNullRecords /\
              q <> DeleteNullUserIds) as [Hsame Hev].
    { assert (legacy_found (with_user_id_column d) = legacy_found d) as Hfound1.
      { unfold legacy_found.
        now destruct (with_user_id_column_flags d) as (-> & _ & ->). }
      pose proof (with_user_id_column_twice d) as Htwice.
      assert (forall q on thrown,
                 In (Executed q on thrown)
                    [Executed SelectUserEmailColumn (with_user_id_column d) None;
                     Executed AddUserIdColumn (with_user_id_column d) None;
                     Executed UpdateUserId (with_user_id_column d) (Some err)] ->
                 snd (pg_execute UpdateUserId (with_user_id_column d)) = inl err ->
                 on = with_user_id_column d /\ fst (pg_execute q on) = on /\
                 q <> DeleteOrphaned /\ q <> DeleteNullRecords /\
                 q <> DeleteNullUserIds) as Hthree.
      { intros q on thrown Hin Hfail.
        destruct Hin as [Hin|[Hin|[Hin|[]]]]; injection Hin as <- <- <-;
          (split; [reflexivity|split; [|repeat split; discriminate]]).
        - reflexivity.
        - exact Htwice.
        - unfold pg_execute, needing in *.
          destruct (has_user_id _ && has_user_email _); [|reflexivity].
          destruct (update_user_id _ _); [reflexivity|discriminate Hfail]. }
      destruct (legacy_found d) eqn:Hfound.
      - legacy_cases Hid1 Hue1 Hcols.
        + destruct (update_user_id _ _) as [err'|rows2] eqn:Hup; [|discriminate].
          injection Hrun as <- _ <-.
          rewrite run_eq. unfold run_closed. cbv zeta.
          rewrite Hfound1, Htwice, Hcols, Hup. cbn [negb].
          split; [reflexivity|]. unfold trace. cbn [fst snd].
          intros q on thrown Hin. apply (Hthree q on thrown).
          * simpl in Hin. simpl. intuition (try discriminate; auto).
          * unfold pg_execute, needing. now rewrite Hcols, Hup.
        + injection Hrun as <- _ <-.
          rewrite run_eq. unfold run_closed. cbv zeta.
          rewrite Hfound1, Htwice, Hcols. cbn [negb].
          split; [reflexivity|]. unfold trace. cbn [fst snd].
          intros q on thrown Hin. apply (Hthree q on thrown).
          * simpl in Hin. simpl. intuition (try discriminate; auto).
          * unfold pg_execute, needing. now rewrite Hcols.
      - destruct (has_user_id d) eqn:Hid; [discriminate|].
        injection Hrun as <- _ <-.
        rewrite run_eq. unfold run_closed. rewrite Hfound, Hid.
        split; [reflexivity|]. unfold trace. simpl.
        intros q on thrown Hin.
        repeat (destruct Hin as [Hin|Hin]; try discriminate Hin;
                try (injection Hin as <- <- <-));
          try contradiction;
          (split; [reflexivity|split; [|repeat split; discriminate]]); simpl.
        + reflexivity.
        + unfold needing. now rewrite Hid. }
    rewrite Hsame. simpl.
    split; [reflexivity|]. split; [reflexivity|]. split; [exact Hev|discriminate].
  - (* the first run returned *)
    destruct (completed_run d d1 t Hrun) as (Hid1 & Hnone).
    rewrite (run_clean d1 Hid1 (completed_run_columns d d1 t Hrun) Hnone). simpl.
    split; [reflexivity|]. split; [reflexivity|]. split; [|intros _; exact Hnone].
    intros q on thrown Hin.
    assert (on = d1 /\ q <> DeleteOrphaned /\ q <> DeleteNullRecords /\
            q <> DeleteNullUserIds) as (-> & H1 & H2 & H3).
    { destruct (has_user_email d1);
        repeat (destruct Hin as [Hin|Hin]; try discriminate Hin;
                try (injection Hin as <- <- <-));
        try contradiction; repeat split; discriminate. }
    split; [reflexivity|]. split; [|auto].
    now apply clean_statement_changes_nothing.
Qed.

Lemma second_run_changes_nothing_witness :
  tally where_null_user_id (workspace_member (final_db (run legacy_db))) = 0%nat.
Proof.
  apply (proj2 (proj2 (proj2 (proj2 (second_run_changes_nothing legacy_db))))).
  vm_compute. reflexivity.
Defined.

Lemma set_user_id_same (r : WorkspaceMember) :
  set_user_id (user_id r) r = r.
Proof. now destruct r. Qed.

(** Where a successful run of the legacy branch stands after the UPDATE. *)
Lemma legacy_run (d d' : Db) (t : list (event Db Error)) :
  run d = (d', t, inr tt) ->
  has_user_email d = true ->
  exists rows2,
    update_user_id (user d) (workspace_member (with_user_id_column d)) = inr rows2 /\
    d' = set_workspace_member
           (sweep where_null_record (sweep where_orphaned rows2))
           (with_user_id_column d) /\
    t = [ConsoleLog Checking; Executed SelectUserEmailColumn d None;
         ConsoleLog FoundUserEmailColumn; Executed AddUserIdColumn d None;
         Executed UpdateUserId (with_user_id_column d) None]
        ++ guarded CountOrphaned DeleteOrphaned where_orphaned
             FoundInvalidUserEmail []
             (set_workspace_member rows2 (with_user_id_column d))
        ++ guarded CountNullRecords DeleteNullRecords where_null_record
             FoundNoUserIdentification []
             (set_workspace_member (sweep where_orphaned rows2)
                (with_user_id_column d))
        ++ [ConsoleLog MigratedUserEmail;
            Executed CountNullUserIds d' None; ConsoleLog Completed].
Proof.
  rewrite run_eq. unfold run_closed. intros Hrun Hue.
  rewrite (legacy_found_of_column d Hue) in Hrun.
  destruct (with_user_id_column_flags d) as (_ & Hu & _). rewrite Hu in Hrun.
  legacy_cases Hid1 Hue1 Hcols; [|discriminate].
  destruct (update_user_id _ _) as [err|rows2]; [discriminate|].
  injection Hrun as <- <-. exists rows2. auto.
Qed.

(** In such a run the table has both columns when the UPDATE runs. *)
Lemma legacy_run_columns (d d' : Db) (t : list (event Db Error)) :
  run d = (d', t, inr tt) ->
  has_user_email d = true ->
  has_user_id (with_user_id_column d) = true /\
  has_user_email (with_user_id_column d) = true.
Proof.
  rewrite run_eq. unfold run_closed. intros Hrun Hue.
  rewrite (legacy_found_of_column d Hue) in Hrun.
  legacy_cases Hid1 Hue1 Hcols; [auto|discriminate].
Qed.

(** C3.  In a run that completes, a row with a NULL [user_id] whose
    [user_email] is the email of a user [u] is in the table the UPDATE of
    lines 41-49 runs on; the subquery of that UPDATE yields the id of [u] for
    it; and the row, with [user_id] set to that id and nothing else changed,
    is in the table at the end. *)
Theorem matched_row_gets_user_id (d d' : Db) (t : list (event Db Error))
  (r : WorkspaceMember) (u : User) :
  run d = (d', t, inr tt) ->
  has_user_email d = true ->
  In r (workspace_member d) ->
  user_id r = None ->
  user_email r = Some (email u) ->
  In u (user d) ->
  In (Executed UpdateUserId (with_user_id_column d) None) t /\
  In r (workspace_member (with_user_id_column d)) /\
  select_user_id (user d) (email u) = inr (Some (id u)) /\
  In (set_user_id (Some (id u)) r) (workspace_member d').
Proof.
  intros Hrun Hue Hin Hnull Hemail Hu.
  destruct (legacy_run d d' t Hrun Hue) as (rows2 & Hup & -> & ->).
  pose proof (with_user_id_column_in d r Hin Hnull) as Hin1.
  pose proof (update_user_id_in _ _ _ r Hup Hin1) as Hr.
  rewrite Hnull, Hemail in Hr. destruct Hr as (v & Hsel & Hin2).
  pose proof (select_user_id_of_user _ _ _ Hu Hsel) as ->.
  split; [in_trace|]. split; [exact Hin1|]. split; [exact Hsel|].
  simpl. apply in_sweep. split; [apply in_sweep; split; [exact Hin2|]|]; reflexivity.
Qed.

Lemma matched_row_gets_user_id_witness :
  In (member "m2" (Some "bob@example.com") (Some "u2"))
     (workspace_member (final_db (run mixed_db))).
Proof.
  refine (proj2 (proj2 (proj2
    (matched_row_gets_user_id mixed_db (final_db (run mixed_db))
       (trace (run mixed_db)) (member "m2" (Some "bob@example.com") None) bob
       _ _ _ _ _ _)))).
  - vm_compute. reflexivity.
  - reflexivity.
  - simpl. auto.
  - reflexivity.
  - reflexivity.
  - simpl. auto.
Defined.



(** C5, as the code has it.  In a run that completes on a table with the
    [user_email] column, a row whose [user_id] and [user_email] are both NULL
    is matched by neither the UPDATE nor the DELETE of line 68; it is still in
    the table when the DELETE of lines 84-87 is executed, right after the
    line reporting the count, which is not zero; it is gone after that
    DELETE and at the end.  And at the end no row at all has a NULL
    [user_id] with a NULL or empty [user_email]. *)
Theorem null_email_row_is_deleted (d d' : Db) (t : list (event Db Error))
  (r : WorkspaceMember) :
  run d = (d', t, inr tt) ->
  has_user_email d = true ->
  In r (workspace_member d) ->
  user_id r = None ->
  user_email r = None ->
  (exists on pre post,
      t = pre
          ++ [ConsoleLog (FoundNoUserIdentification
                (count_of (count_result (tally where_null_record (workspace_member on)))));
              Executed DeleteNullRecords on None]
          ++ post /\
      (0 < tally where_null_record (workspace_member on))%nat /\
      In r (workspace_member on) /\
      where_orphaned r = false /\
      where_null_record r = true /\
      ~ In r (workspace_member (fst (pg_execute DeleteNullRecords on))) /\
      ~ In r (workspace_member d')) /\
  (forall r', In r' (workspace_member d') -> where_null_record r' = false).
Proof.
  intros Hrun Hue Hin Hnull Hemail.
  pose proof (fun r' => completed_run_rows d d' t r' Hrun) as Hall.
  split.
  2:{ intros r' Hin'. apply Hall in Hin'. unfold where_null_record.
      now destruct (user_id r'). }
  destruct (legacy_run_columns d d' t Hrun Hue) as (Hid1 & Hue1).
  destruct (legacy_run d d' t Hrun Hue) as (rows2 & Hup & -> & ->).
  pose proof (with_user_id_column_in d r Hin Hnull) as Hin1.
  pose proof (update_user_id_in _ _ _ r Hup Hin1) as Hin2.
  rewrite Hnull, Hemail in Hin2.
  assert (where_orphaned r = false) as Ho
    by (unfold where_orphaned; now rewrite Hnull, Hemail).
  assert (where_null_record r = true) as Hn
    by (unfold where_null_record; now rewrite Hnull, Hemail).
  assert (In r (sweep where_orphaned rows2)) as Hin3 by now apply in_sweep.
  pose proof (tally_positive _ _ _ Hin3 Hn) as Hpos.
  exists (set_workspace_member (sweep where_orphaned rows2) (with_user_id_column d)).
  exists ([ConsoleLog Checking; Executed SelectUserEmailColumn d None;
           ConsoleLog FoundUserEmailColumn; Executed AddUserIdColumn d None;
           Executed UpdateUserId (with_user_id_column d) None]
          ++ guarded CountOrphaned DeleteOrphaned where_orphaned
               FoundInvalidUserEmail []
               (set_workspace_member rows2 (with_user_id_column d))
          ++ [Executed CountNullRecords
                (set_workspace_member (sweep where_orphaned rows2)
                   (with_user_id_column d)) None]).
  eexists.
  split; [|split; [|split; [|split; [|split; [|split]]]]].
  - unfold guarded at 2. simpl workspace_member. rewrite Hpos.
    rewrite <- !app_assoc. reflexivity.
  - now apply Nat.ltb_lt.
  - exact Hin3.
  - exact Ho.
  - exact Hn.
  - simpl. unfold needing. rewrite Hid1, Hue1. simpl.
    intros Hin4. apply filter_In in Hin4. rewrite Hn in Hin4. now destruct Hin4.
  - intros Hin4. now apply Hall in Hin4.
Qed.

Lemma null_email_row_is_deleted_witness :
  exists on pre post,
    trace (run mixed_db)
    = pre
      ++ [ConsoleLog (FoundNoUserIdentification
            (count_of (count_result (tally where_null_record (workspace_member on)))));
          Executed DeleteNullRecords on None]
      ++ post.
Proof.
  destruct (null_email_row_is_deleted mixed_db (final_db (run mixed_db))
              (trace (run mixed_db)) (member "m4" None None))
    as ((on & pre & post & Hgone & _) & _).
  - vm_compute. reflexivity.
  - reflexivity.
  - simpl. auto.
  - reflexivity.
  - reflexivity.
  - exists on, pre, post. exact Hgone.
Defined.

(** C5, as stated, fails on [empty_email_db]: the run completes; its one
    row has a NULL [user_id] and an empty [user_email]; the DELETE of lines
    84-87 is never executed and its count is never reported: the row is
    removed by the DELETE of lines 66-69. *)
Lemma empty_email_row_not_deleted_at_step_5 :
  outcome (run empty_email_db) = inr tt /\
  workspace_member empty_email_db = [member "m1" (Some EmptyString) None] /\
  where_null_record (member "m1" (Some EmptyString) None) = true /\
  ~ In DeleteNullRecords (executed (trace (run empty_email_db))) /\
  (forall count,
      ~ In (ConsoleLog (FoundNoUserIdentification count))
           (trace (run empty_email_db))) /\
  In (Executed DeleteOrphaned empty_email_db None) (trace (run empty_email_db)).
Proof.
  split; [vm_compute; reflexivity|]. split; [reflexivity|]. split; [reflexivity|].
  split; [|split].
  - vm_compute. intuition discriminate.
  - intros count. vm_compute. intuition discriminate.
  - vm_compute. intuition.
Qed.




(** The same on a migrated table: nothing is altered, but the UPDATE is
    executed and throws, and the row with a NULL [user_id] stays. *)
Example shadowed_migrated_table_is_not_swept :
  executed (trace (run shadowed_migrated_db))
  = [SelectUserEmailColumn; AddUserIdColumn; UpdateUserId] /\
  outcome (run shadowed_migrated_db) = inl undefined_column /\
  final_db (run shadowed_migrated_db) = shadowed_migrated_db.
Proof. repeat split; vm_compute; reflexivity. Qed.

(* ------------------------------------------------------------------ *)
(** ** Rows that already carry a user id *)

Lemma count_occ_kept (q : WorkspaceMember -> bool) (rows : list WorkspaceMember)
  (r : WorkspaceMember) :
  q r = false ->
  count_occ WorkspaceMember_eq_dec (sweep q rows) r
  = count_occ WorkspaceMember_eq_dec rows r.
Proof.
  intros Hq. unfold sweep. induction rows as [|r0 rest IH]; [reflexivity|].
  simpl. destruct (WorkspaceMember_eq_dec r0 r) as [->|Hne].
  - rewrite Hq. simpl. destruct (WorkspaceMember_eq_dec r r); [|contradiction].
    now rewrite IH.
  - destruct (q r0); simpl; [exact IH|].
    destruct (WorkspaceMember_eq_dec r0 r); [contradiction|exact IH].
Qed.

Lemma count_occ_update (users : list User) (rows rows2 : list WorkspaceMember)
  (r : WorkspaceMember) :
  update_user_id users rows = inr rows2 ->
  user_id r <> None ->
  (count_occ WorkspaceMember_eq_dec rows r
   <= count_occ WorkspaceMember_eq_dec rows2 r)%nat.
Proof.
  intros Hup Hr. revert rows2 Hup.
  induction rows as [|r0 rest IH]; intros rows2 Hup; simpl in Hup.
  - injection Hup as <-. reflexivity.
  - destruct (user_id r0) as [i0|] eqn:Hi0;
      [|destruct (user_email r0) as [e0|] eqn:He0];
      try (destruct (select_user_id users e0) as [|v0]; [discriminate|]);
      (destruct (update_user_id users rest) as [|rest'] eqn:Hrest; [discriminate|]);
      injection Hup as <-; specialize (IH rest' eq_refl); simpl;
      repeat match goal with
             | |- context [WorkspaceMember_eq_dec ?a ?b] =>
                 destruct (WorkspaceMember_eq_dec a b)
             end;
      subst; try congruence; lia.
Qed.

(** C10.  On a table with the [user_id] column, take a row whose [user_id]
    is not NULL.  None of the nine statements lowers the number of copies
    of that row in the table, and neither does a run of the routine, however
    it ends: the row is in the table afterwards, unchanged. *)
Theorem rows_with_user_id_are_kept (d : Db) (r : WorkspaceMember) :
  has_user_id d = true ->
  user_id r <> None ->
  (forall q,
      (count_occ WorkspaceMember_eq_dec (workspace_member d) r
       <= count_occ WorkspaceMember_eq_dec
            (workspace_member (fst (pg_execute q d))) r)%nat) /\
  (count_occ WorkspaceMember_eq_dec (workspace_member d) r
   <= count_occ WorkspaceMember_eq_dec
        (workspace_member (final_db (run d))) r)%nat /\
  (In r (workspace_member d) -> In r (workspace_member (final_db (run d)))).
Proof.
  intros Hid Hr.
  assert (where_null_user_id r = false) as Hn by now apply where_null_user_id_false.
  assert (where_orphaned r = false /\ where_null_record r = false) as [Ho Hnr].
  { rewrite null_user_id_cases in Hn. now apply orb_false_iff in Hn. }
  assert (count_occ WorkspaceMember_eq_dec (workspace_member d) r
          <= count_occ WorkspaceMember_eq_dec
               (workspace_member (final_db (run d))) r)%nat as Hrun.
  { rewrite run_eq. unfold run_closed, final_db.
    rewrite (with_user_id_column_present d Hid), Hid.
    destruct (legacy_found d).
    - destruct (negb _); [reflexivity|].
      destruct (update_user_id _ _) as [err|rows2] eqn:Hup; simpl; [reflexivity|].
      rewrite !count_occ_kept by assumption.
      now apply (count_occ_update _ _ _ _ Hup).
    - simpl. now rewrite count_occ_kept. }
  split; [|split; [exact Hrun|]].
  - intros q. destruct q; simpl;
      unfold needing, select_count, delete_where, some_user_id_column;
      rewrite ?Hid; simpl; try reflexivity;
      destruct (has_user_email d); simpl; try reflexivity;
      try (rewrite ?Hid; fold (sweep where_orphaned (workspace_member d));
           fold (sweep where_null_record (workspace_member d));
           fold (sweep where_null_user_id (workspace_member d));
           now rewrite count_occ_kept).
    destruct (update_user_id _ _) as [err|rows2] eqn:Hup; simpl; [reflexivity|].
    now apply (count_occ_update _ _ _ _ Hup).
  - intros Hin.
    apply (count_occ_In WorkspaceMember_eq_dec) in Hin.
    apply (count_occ_In WorkspaceMember_eq_dec). lia.
Qed.

Lemma rows_with_user_id_are_kept_witness :
  In (member "m1" (Some "alice@example.com") (Some "u1"))
     (workspace_member (final_db (run mixed_db))).
Proof.
  apply (rows_with_user_id_are_kept mixed_db
           (member "m1" (Some "alice@example.com") (Some "u1"))).
  - reflexivity.
  - discriminate.
  - simpl. auto.
Defined.

(* ------------------------------------------------------------------ *)
(** ** When the routine returns *)

Lemma no_user_with_email (users : list User) (e : string) :
  ~ In e (map email users) ->
  filter (fun u => String.eqb (email u) e) users = [].
Proof.
  induction users as [|u rest IH]; simpl; [reflexivity|]. intros Hnot.
  destruct (String.eqb (email u) e) eqn:He.
  - apply String.eqb_eq in He. exfalso. apply Hnot. now left.
  - apply IH. intros Hin. apply Hnot. now right.
Qed.

(** With no email shared by two users the subquery of line 43 never fails. *)
Lemma select_user_id_unique (users : list User) (e : string) :
  NoDup (map email users) -> exists v, select_user_id users e = inr v.
Proof.
  unfold select_user_id. induction users as [|u rest IH]; simpl; intros Hnd.
  - now exists None.
  - inversion Hnd as [|? ? Hnot Hrest]; subst.
    destruct (String.eqb (email u) e) eqn:He.
    + apply String.eqb_eq in He. subst e.
      rewrite (no_user_with_email _ _ Hnot). now exists (Some (id u)).
    + now apply IH.
Qed.

Lemma update_user_id_total (users : list User) (rows : list WorkspaceMember) :
  NoDup (map email users) -> exists rows2, update_user_id users rows = inr rows2.
Proof.
  intros Hnd. induction rows as [|r rest [rest' IH]]; simpl.
  - now exists [].
  - rewrite IH. destruct (user_id r); [now eexists|].
    destruct (user_email r) as [e|]; [|now eexists].
    destruct (select_user_id_unique users e Hnd) as [v ->]. now eexists.
Qed.

(** The routine returns on a table with the [user_email] column when no two
    users share an email and the [user_id] column is there or is in no table
    of that name (so that line 35 adds it); and on a table without
    [user_email] when no table of that name has it and the [user_id] column
    is there. *)
Lemma run_completes (d : Db) :
  (if has_user_email d
   then NoDup (map email (user d)) /\
        has_user_id d || negb (existsb with_user_id (elsewhere d)) = true
   else existsb with_user_email (elsewhere d) = false /\ has_user_id d = true) ->
  outcome (run d) = inr tt.
Proof.
  rewrite run_eq. unfold run_closed, outcome, legacy_found.
  destruct (with_user_id_column_flags d) as (Hue1 & Hu & _).
  rewrite Hue1, Hu, with_user_id_column_id.
  destruct (has_user_email d).
  - intros [Hnd ->]. simpl.
    destruct (update_user_id_total (user d)
                (workspace_member (with_user_id_column d)) Hnd) as [rows2 ->].
    reflexivity.
  - now intros [-> ->].
Qed.

(** With priority ["low"], the checkmark is next to "Low" and nowhere
    else. *)
Example low_task_checkmarks :
  map Popover.check (Popover.TaskPriorityPopover low_task)
  = [false; true; false; false; false].
Proof. reflexivity. Qed.

(** A row with an empty [user_email] and a user whose email is empty: the
    UPDATE resolves the row and nothing deletes it. *)
Example empty_email_row_can_be_resolved :
  outcome (run empty_email_user_db) = inr tt /\
  workspace_member (final_db (run empty_email_user_db))
  = [member "m1" (Some EmptyString) (Some "u0")].
Proof. split; vm_compute; reflexivity. Qed.

(* ------------------------------------------------------------------ *)
(** ** The priority popover *)

Section PopoverFacts.
Import Popover.
Variable updateTask : JS.object -> Thrown + JS.value.

(** C8.  The popover renders the five options in their fixed order.  For a
    rendered option, the checkmark is shown exactly when the task's
    [priority] is that option's value; clicking it calls [updateTask] once,
    first, with a payload whose [priority] is that value and whose other
    properties read as the task's; and if that call resolves, the handler
    closes the popover. *)
Theorem selecting_a_priority (task : Task) (is_open : bool) (b : Button) :
  In b (TaskPriorityPopover task) ->
  map key (TaskPriorityPopover task)
  = ["no-priority"; "low"; "medium"; "high"; "urgent"] /\
  map text (TaskPriorityPopover task)
  = ["No Priority"; "Low"; "Medium"; "High"; "Urgent"] /\
  (check b = true <-> JS.get task "priority" = JS.str (key b)) /\
  icon b = key b /\
  onClick b = key b /\
  (exists rest,
      snd (handlePriorityChange updateTask task is_open (onClick b))
      = UpdateTask (JS.set "priority" (JS.str (key b)) task) :: rest /\
      forall payload, ~ In (UpdateTask payload) rest) /\
  JS.get (JS.set "priority" (JS.str (key b)) task) "priority" = JS.str (key b) /\
  (forall k, k <> "priority" ->
             JS.get (JS.set "priority" (JS.str (key b)) task) k = JS.get task k) /\
  (forall v,
      updateTask (JS.set "priority" (JS.str (key b)) task) = inr v ->
      handlePriorityChange updateTask task is_open (onClick b)
      = (false, [UpdateTask (JS.set "priority" (JS.str (key b)) task);
                 SetOpen false])).
Proof.
  intros Hin. split; [reflexivity|]. split; [reflexivity|].
  assert (check b = JS.strict_eq (JS.get task "priority") (JS.str (key b)) /\
          icon b = key b /\ onClick b = key b) as (Hcheck & Hicon & Hclick).
  { unfold TaskPriorityPopover in Hin. apply in_map_iff in Hin.
    destruct Hin as (p & <- & _). simpl. auto. }
  split; [rewrite Hcheck; apply strict_eq_str|].
  split; [exact Hicon|]. split; [exact Hclick|]. rewrite Hclick.
  split; [|split; [apply get_set_same|split; [intros k; apply get_set_other|]]].
  - unfold handlePriorityChange.
    destruct (updateTask _); simpl; eexists; (split; [reflexivity|]);
      intros payload [Hp|[]]; discriminate Hp.
  - intros v Hv. unfold handlePriorityChange. now rewrite Hv.
Qed.

(** C9.  When the [updateTask] call of a selection rejects, the handler
    leaves the [open] state as it was and never calls [setOpen]; it calls
    [toast.error] exactly once, with the error's [message] if the error is an
    [Error] instance and with ["Failed to update task priority"] if it is
    not. *)
Theorem rejection_is_toasted (task : Task) (is_open : bool) (newPriority : string)
  (error : Thrown) :
  updateTask (JS.set "priority" (JS.str newPriority) task) = inl error ->
  fst (handlePriorityChange updateTask task is_open newPriority) = is_open /\
  (forall b,
      ~ In (SetOpen b) (snd (handlePriorityChange updateTask task is_open newPriority))) /\
  (forall message,
      error = ErrorInstance message ->
      snd (handlePriorityChange updateTask task is_open newPriority)
      = [UpdateTask (JS.set "priority" (JS.str newPriority) task);
         ToastError message]) /\
  (forall v,
      error = NotAnError v ->
      snd (handlePriorityChange updateTask task is_open newPriority)
      = [UpdateTask (JS.set "priority" (JS.str newPriority) task);
         ToastError "Failed to update task priority"]).
Proof.
  intros Hrej. unfold handlePriorityChange. rewrite Hrej. simpl.
  split; [reflexivity|]. split; [|split].
  - intros b [Hb|[Hb|[]]]; discriminate Hb.
  - now intros message ->.
  - now intros v ->.
Qed.

End PopoverFacts.

Lemma selecting_a_priority_witness :
  Popover.handlePriorityChange (fun _ => inr JS.undefined) low_task true "urgent"
  = (false,
     [Popover.UpdateTask [("id", JS.str "t1"); ("priority", JS.str "urgent");
                          ("title", JS.str "Write the report")];
      Popover.SetOpen false]).
Proof.
  refine (proj2 (proj2 (proj2 (proj2 (proj2 (proj2 (proj2 (proj2
    (selecting_a_priority (fun _ => inr JS.undefined) low_task true
       {| Popover.key := "urgent"; Popover.icon := "urgent";
          Popover.text := "Urgent"; Popover.check := false;
          Popover.onClick := "urgent" |} _)))))))) JS.undefined eq_refl).
  simpl. auto 6.
Defined.

Lemma rejection_is_toasted_witness :
  Popover.handlePriorityChange
    (fun _ => inl (Popover.ErrorInstance "Network error")) low_task true "urgent"
  = (true,
     [Popover.UpdateTask [("id", JS.str "t1"); ("priority", JS.str "urgent");
                          ("title", JS.str "Write the report")];
      Popover.ToastError "Network error"]).
Proof.
  pose proof (rejection_is_toasted
                (fun _ => inl (Popover.ErrorInstance "Network error"))
                low_task true "urgent" (Popover.ErrorInstance "Network error")
                eq_refl) as (Hopen & _ & Htoast & _).
  specialize (Htoast "Network error" eq_refl).
  apply injective_projections; [exact Hopen|exact Htoast].
Defined.

(* ------------------------------------------------------------------ *)
(** ** The order of statements and log lines, over any database *)

Section AnyDatabaseOrder.
Context {S E : Type} `{Database S E}.

Ltac routine_cases :=
  unfold migrateWorkspaceUserEmail, legacy_branch, final_sweep, trace, outcome;
  unfold bind, try_catch, when, db_execute, console_log, console_error, ret, throw;
  repeat
    (simpl;
     match goal with
     | |- context [let (_, _) := execute ?q ?s in _] =>
         let e := fresh "e" in
         let r := fresh "r" in
         destruct (execute q s) as [? [e|r]] eqn:?
     | |- context [if ?c then _ else _] => destruct c eqn:?
     end);
  simpl.

(** X1.  Statements are executed in the order of the source text, each at most
    once, and the first one is always the probe of lines 16-21. *)
Theorem statements_in_source_order (s : S) :
  StronglySorted lt (map position (executed (trace (migrateWorkspaceUserEmail s)))) /\
  hd_error (executed (trace (migrateWorkspaceUserEmail s)))
  = Some SelectUserEmailColumn /\
  exists on thrown rest,
    trace (migrateWorkspaceUserEmail s)
    = ConsoleLog Checking :: Executed SelectUserEmailColumn on thrown :: rest /\
    on = s.
Proof.
  routine_cases;
    (split; [repeat constructor|split; [reflexivity|]]);
    do 3 eexists; split; reflexivity.
Qed.

Lemma delete_only_after_test (s : S) :
  guards CountOrphaned DeleteOrphaned (trace (migrateWorkspaceUserEmail s)) /\
  guards CountNullRecords DeleteNullRecords (trace (migrateWorkspaceUserEmail s)) /\
  guards CountNullUserIds DeleteNullUserIds (trace (migrateWorkspaceUserEmail s)).
Proof.
  unfold guards.
  routine_cases;
    (split; [|split]); intros on thrown Hin;
    repeat (destruct Hin as [Hin|Hin]; try discriminate Hin);
    try contradiction;
    injection Hin as <- <-;
    do 2 eexists;
    (split; [simpl; repeat (first [left; reflexivity | right])|]);
    (split; [eassumption|assumption]).
Qed.

(** On the decimal text of a number the test of lines 58-61, 79 and 100
    says whether the number is greater than zero. *)
Lemma test_on_digits (r : QueryResult) (digits : string) (n : Decimal.uint) :
  count_of r = JS.str digits ->
  NilEmpty.uint_of_string digits = Some n ->
  count_is_positive r = true ->
  (0 < N.of_uint n)%N.
Proof.
  unfold count_is_positive. intros -> Hn Htest.
  apply andb_true_iff in Htest. destruct Htest as [_ Hgt].
  simpl in Hgt. rewrite Hn in Hgt. simpl in Hgt.
  apply Z.ltb_lt in Hgt. lia.
Qed.

(** X2.  No DELETE without its count.  Over any database that returns its
    counts as the decimal text of a number, each of the three DELETEs is
    executed only on the database its count left, and only after that count
    returned a number greater than zero. *)
Theorem delete_only_after_positive_count (s : S) :
  counts_as_digits ->
  guards_positive CountOrphaned DeleteOrphaned
    (trace (migrateWorkspaceUserEmail s)) /\
  guards_positive CountNullRecords DeleteNullRecords
    (trace (migrateWorkspaceUserEmail s)) /\
  guards_positive CountNullUserIds DeleteNullUserIds
    (trace (migrateWorkspaceUserEmail s)).
Proof.
  intros Hdigits.
  destruct (delete_only_after_test s) as (H1 & H2 & H3).
  assert (forall count delete t,
             count = CountOrphaned \/ count = CountNullRecords \/
             count = CountNullUserIds ->
             guards count delete t -> guards_positive count delete t) as Hstep.
  { intros count delete t Hcount Hg on thrown Hin.
    destruct (Hg on thrown Hin) as (on0 & r & Hin0 & Hexec & Htest).
    destruct (Hdigits count on0 on r Hexec Hcount) as (digits & n & Hr & Hn).
    exists on0, r, digits, n. repeat split; try assumption.
    exact (test_on_digits r digits n Hr Hn Htest). }
  repeat split; apply Hstep; auto.
Qed.

Ltac in_cases Hin :=
  repeat (destruct Hin as [Hin|Hin]; try discriminate Hin); try contradiction.

(** X3.  The closing lines of the log tell how the run went: "completed
    successfully" (line 113) is logged exactly when the routine returns,
    and is then the last line; "Removed records" (line 110) is logged
    exactly when the DELETE of lines 105-108 returned; "Successfully
    migrated" (line 90) is logged only after the UPDATE and the count of
    lines 73-77 returned. *)
Theorem closing_log_lines (s : S) :
  (In (ConsoleLog Completed) (trace (migrateWorkspaceUserEmail s))
   <-> outcome (migrateWorkspaceUserEmail s) = inr tt) /\
  (outcome (migrateWorkspaceUserEmail s) = inr tt ->
   last (trace (migrateWorkspaceUserEmail s)) (ConsoleLog Checking)
   = ConsoleLog Completed) /\
  (In (ConsoleLog RemovedNullUserId) (trace (migrateWorkspaceUserEmail s))
   <-> In DeleteNullUserIds (executed (trace (migrateWorkspaceUserEmail s))) /\
       outcome (migrateWorkspaceUserEmail s) = inr tt) /\
  (In (ConsoleLog MigratedUserEmail) (trace (migrateWorkspaceUserEmail s)) ->
   exists on1 on2,
     In (Executed UpdateUserId on1 None) (trace (migrateWorkspaceUserEmail s)) /\
     In (Executed CountNullRecords on2 None) (trace (migrateWorkspaceUserEmail s))).
Proof.
  routine_cases;
    (split; [split; [intros Hin; in_cases Hin; reflexivity
                    |intros Hout; try discriminate Hout; simpl; intuition]|]);
    (split; [intros Hout; try discriminate Hout; reflexivity|]);
    (split; [split; [intros Hin; in_cases Hin; (split; [simpl; intuition|reflexivity])
                    |intros [Hin Hout]; try discriminate Hout;
                     simpl in Hin; in_cases Hin; simpl; intuition]|]);
    intros Hin; in_cases Hin; do 2 eexists; split; simpl;
    repeat (first [left; reflexivity | right]).
Qed.

(** X4.  The statements of lines 27-87 are executed only when the probe of lines
    16-21 returned at least one row; the DO block of lines 27-38 is then
    always executed, and it is executed whenever any of them is. *)
Theorem legacy_branch_only_after_probe (s : S) :
  (In AddUserIdColumn (executed (trace (migrateWorkspaceUserEmail s)))
   <-> exists s1 r,
         execute SelectUserEmailColumn s = (s1, inr r) /\ rows r <> []) /\
  (forall q,
      In q (executed (trace (migrateWorkspaceUserEmail s))) ->
      (1 <= position q <= 6)%nat ->
      In AddUserIdColumn (executed (trace (migrateWorkspaceUserEmail s)))).
Proof.
  routine_cases; (split; [split|]).
  all: try (intros Hin;
            first [ solve [in_cases Hin]
                  | do 2 eexists; split; [reflexivity|];
                    intros Hr;
                    match goal with
                    | Hb : (0 <? _)%nat = true |- _ =>
                        rewrite Hr in Hb; discriminate Hb
                    end ]).
  all: try (intros (s1' & r' & Heq & Hne);
            first [ discriminate Heq
                  | injection Heq as <- <-;
                    first [ solve [simpl; intuition]
                          | exfalso;
                            match goal with
                            | Hb : (0 <? _)%nat = false |- _ =>
                                destruct (rows _);
                                [now apply Hne|discriminate Hb]
                            end ] ]).
  all: intros q Hin Hpos; simpl in Hin;
    repeat (destruct Hin as [Hin|Hin]; [subst q|]); try contradiction;
    simpl in Hpos; first [lia | simpl; intuition].
Qed.

End AnyDatabaseOrder.

(* ------------------------------------------------------------------ *)
(** ** What the routine leaves alone, and what it leaves behind *)

(** A trace of [run], unfolded into its branches. *)
Ltac trace_cases :=
  unfold guarded in *;
  repeat match goal with
         | |- context [if ?c then _ else _] => destruct c eqn:?
         | Hx : context [if ?c then _ else _] |- _ => destruct c eqn:?
         end;
  simpl in *.

(** X5.  The ["user"] table is read-only: no statement changes it, and no run
    does, however it ends. *)
Theorem users_are_never_modified (d : Db) :
  (forall q, user (fst (pg_execute q d)) = user d) /\
  user (final_db (run d)) = user d.
Proof.
  split.
  - intros q. destruct q; simpl; unfold needing, select_count, delete_where;
      try (destruct (some_user_id_column d); reflexivity);
      try (destruct (has_user_id d); simpl; try reflexivity);
      try (destruct (has_user_email d); simpl; try reflexivity).
    now destruct (update_user_id _ _).
  - rewrite run_eq. unfold run_closed, final_db.
    destruct (with_user_id_column_flags d) as (_ & Hu & _).
    destruct (legacy_found d).
    + destruct (negb _); [exact Hu|].
      destruct (update_user_id _ _); exact Hu.
    + now destruct (has_user_id d).
Qed.

(** X6.  The [user_id] column after a run, however it ends.  If the DO block
    of lines 27-38 returned, the table has the column exactly when it had it
    before or no table named ["workspace_member"], in any schema, had one:
    line 35 then adds it, and nothing takes it back when a later statement
    throws.  If the DO block was not executed the column is as before.  A
    column that was there is never dropped. *)
Theorem user_id_column_after_run (d : Db) :
  (forall on,
      In (Executed AddUserIdColumn on None) (trace (run d)) ->
      has_user_id (final_db (run d))
      = has_user_id d || negb (existsb with_user_id (elsewhere d))) /\
  (~ In AddUserIdColumn (executed (trace (run d))) ->
   has_user_id (final_db (run d)) = has_user_id d) /\
  (has_user_id d = true -> has_user_id (final_db (run d)) = true).
Proof.
  rewrite run_eq. unfold run_closed, final_db, trace.
  destruct (legacy_found d).
  - assert (forall (x : Db * list (event Db Error) * (Error + unit)),
               has_user_id (fst (fst x)) = has_user_id (with_user_id_column d) ->
               In AddUserIdColumn (executed (snd (fst x))) ->
               (forall on,
                   In (Executed AddUserIdColumn on None) (snd (fst x)) ->
                   has_user_id (fst (fst x))
                   = has_user_id d || negb (existsb with_user_id (elsewhere d))) /\
               (~ In AddUserIdColumn (executed (snd (fst x))) ->
                has_user_id (fst (fst x)) = has_user_id d) /\
               (has_user_id d = true -> has_user_id (fst (fst x)) = true)) as Hwith.
    { intros x -> Hexec. rewrite with_user_id_column_id.
      split; [reflexivity|]. split; [intros Hnot; now contradiction Hnot|].
      now intros ->. }
    destruct (has_user_id (with_user_id_column d) &&
              has_user_email (with_user_id_column d)); cbn [negb].
    + destruct (update_user_id _ _); apply Hwith;
        first [reflexivity | simpl; right; left; reflexivity].
    + apply Hwith; first [reflexivity | simpl; right; left; reflexivity].
  - destruct (has_user_id d) eqn:Hid; trace_cases;
      (split; [intros on Hin; intuition discriminate|]);
      (split; [intros _; exact Hid|intros Hx; first [exact Hid|discriminate Hx]]).
Qed.

Lemma user_id_column_after_run_witness :
  has_user_id (final_db (run legacy_db)) = true.
Proof.
  rewrite (proj1 (user_id_column_after_run legacy_db) legacy_db).
  - reflexivity.
  - vm_compute. auto.
Defined.

(** The rows the UPDATE produces, one for one: each is the row it read,
    with at most [user_id] changed, and changed only from NULL. *)
Lemma update_user_id_pointwise (users : list User) (rows rows2 : list WorkspaceMember) :
  update_user_id users rows = inr rows2 ->
  Forall2 (fun r r2 =>
             r2 = r \/
             exists e v, user_id r = None /\ user_email r = Some e /\
                         select_user_id users e = inr v /\ r2 = set_user_id v r)
          rows rows2.
Proof.
  revert rows2. induction rows as [|r rest IH]; intros rows2 Hup; simpl in Hup.
  - injection Hup as <-. constructor.
  - destruct (user_id r) as [i|] eqn:Hi;
      [|destruct (user_email r) as [e|] eqn:He];
      try (destruct (select_user_id users e) as [|v] eqn:Hs; [discriminate|]);
      (destruct (update_user_id users rest) as [|rest'] eqn:Hr; [discriminate|]);
      injection Hup as <-; (constructor; [|now apply IH]).
    + now left.
    + right. now exists e, v.
    + now left.
Qed.

(** X7.  When the UPDATE of lines 41-49 throws, nothing has been deleted or
    updated: the database is left as the DO block of lines 27-38 left it,
    with as many rows as before, and the three statements executed are the
    probe, the DO block and the UPDATE. *)
Theorem failed_update_loses_no_row (d : Db) :
  outcome (run d) = inl cardinality_violation ->
  final_db (run d) = fst (pg_execute AddUserIdColumn d) /\
  length (workspace_member (final_db (run d))) = length (workspace_member d) /\
  executed (trace (run d)) = [SelectUserEmailColumn; AddUserIdColumn; UpdateUserId].
Proof.
  rewrite run_eq. unfold run_closed, outcome, final_db, trace, with_user_id_column.
  destruct (legacy_found d).
  - destruct (negb _); [discriminate|].
    destruct (update_user_id _ _) as [err|rows2]; [|discriminate].
    intros _. simpl. split; [reflexivity|]. split; [|reflexivity].
    destruct (some_user_id_column d); simpl; [reflexivity|apply length_map].
  - destruct (has_user_id d); discriminate.
Qed.

Lemma failed_update_loses_no_row_witness :
  length (workspace_member (final_db (run shared_email_db))) = 2%nat.
Proof.
  rewrite (proj1 (proj2 (failed_update_loses_no_row shared_email_db
                           ltac:(vm_compute; reflexivity)))).
  reflexivity.
Defined.

(** Which rows make the UPDATE fail. *)
Lemma update_user_id_fails (users : list User) (rows : list WorkspaceMember) :
  (exists err, update_user_id users rows = inl err)
  <-> exists r e,
        In r rows /\ user_id r = None /\ user_email r = Some e /\
        (2 <= length (filter (fun u => String.eqb (email u) e) users))%nat.
Proof.
  induction rows as [|r rest IH]; simpl.
  - split; [intros [err Herr]; discriminate|intros (r & e & [] & _)].
  - assert (forall e, (exists err, select_user_id users e = inl err)
                      <-> (2 <= length (filter (fun u => String.eqb (email u) e)
                                          users))%nat) as Hsel.
    { intros e. unfold select_user_id.
      destruct (filter _ users) as [|u1 [|u2 l]]; simpl; split;
        try (intros [err Herr]; discriminate); try lia.
      intros _. now eexists. }
    split.
    + intros [err Herr].
      destruct (user_id r) as [i|] eqn:Hi;
        [|destruct (user_email r) as [e|] eqn:He].
      * destruct (update_user_id users rest) as [err'|] eqn:Hr; [|discriminate].
        destruct (proj1 IH (ex_intro _ err' eq_refl)) as (r0 & e0 & Hin & Hrest).
        exists r0, e0. split; [now right|exact Hrest].
      * destruct (select_user_id users e) as [err'|v] eqn:Hs.
        -- exists r, e. split; [now left|]. split; [exact Hi|]. split; [exact He|].
           apply Hsel. now exists err'.
        -- destruct (update_user_id users rest) as [err'|] eqn:Hr; [|discriminate].
           destruct (proj1 IH (ex_intro _ err' eq_refl)) as (r0 & e0 & Hin & Hrest).
           exists r0, e0. split; [now right|exact Hrest].
      * destruct (update_user_id users rest) as [err'|] eqn:Hr; [|discriminate].
        destruct (proj1 IH (ex_intro _ err' eq_refl)) as (r0 & e0 & Hin & Hrest).
        exists r0, e0. split; [now right|exact Hrest].
    + intros (r0 & e0 & [<-|Hin] & Hi & He & Hlen).
      * rewrite Hi, He. destruct (proj2 (Hsel e0) Hlen) as [err ->]. now exists err.
      * destruct (proj2 IH (ex_intro _ r0 (ex_intro _ e0
                     (conj Hin (conj Hi (conj He Hlen)))))) as [err ->].
        destruct (user_id r); [now exists err|].
        destruct (user_email r) as [e|]; [|now exists err].
        destruct (select_user_id users e) as [err'|v]; [now exists err'|now exists err].
Qed.

(** X8.  Two users sharing an email stop the migration rather than have
    one of them picked: on a table with the [user_email] column, if some row
    without a user id carries an email that two or more users have, the
    routine does not return.  It throws at the UPDATE of lines 41-49, the
    last of the three statements it executes, and the table has as many
    rows as before. *)
Theorem shared_email_stops_the_run (d : Db) (r : WorkspaceMember) (e : string) :
  has_user_email d = true ->
  In r (workspace_member d) ->
  (has_user_id d = true -> user_id r = None) ->
  user_email r = Some e ->
  (2 <= length (filter (fun u => String.eqb (email u) e) (user d)))%nat ->
  (exists err, outcome (run d) = inl err) /\
  executed (trace (run d)) = [SelectUserEmailColumn; AddUserIdColumn; UpdateUserId] /\
  length (workspace_member (final_db (run d))) = length (workspace_member d).
Proof.
  intros Hue Hin Hnull Hemail Hshared.
  assert (length (workspace_member (with_user_id_column d))
          = length (workspace_member d)) as Hlen.
  { unfold with_user_id_column. simpl.
    destruct (some_user_id_column d); simpl; [reflexivity|apply length_map]. }
  rewrite run_eq. unfold run_closed, outcome, trace, final_db.
  rewrite (legacy_found_of_column d Hue).
  destruct (with_user_id_column_flags d) as (_ & Hu & _).
  legacy_cases Hid1 Hue1 Hcols.
  - assert (exists err,
               update_user_id (user (with_user_id_column d))
                 (workspace_member (with_user_id_column d)) = inl err) as [err Herr].
    { apply update_user_id_fails. rewrite Hu.
      revert Hid1. unfold with_user_id_column. simpl. unfold some_user_id_column.
      destruct (has_user_id d) eqn:Hid; simpl.
      - intros _. exists r, e. auto.
      - destruct (existsb with_user_id (elsewhere d)); simpl.
        + rewrite Hid. discriminate.
        + intros _. exists (set_user_id None r), e.
          split; [apply in_map; exact Hin|]. auto. }
    rewrite Herr. simpl. split; [now exists err|]. split; [reflexivity|exact Hlen].
  - simpl. split; [now eexists|]. split; [reflexivity|exact Hlen].
Qed.

Lemma shared_email_stops_the_run_witness :
  exists err, outcome (run shared_email_db) = inl err.
Proof.
  apply (shared_email_stops_the_run shared_email_db
           (member "m1" (Some "alice@example.com") None) "alice@example.com").
  - reflexivity.
  - simpl. auto.
  - reflexivity.
  - reflexivity.
  - vm_compute. lia.
Defined.

Lemma Forall2_from_right {A B : Type} (R : A -> B -> Prop) (l : list A) (l' : list B)
  (y : B) :
  Forall2 R l l' -> In y l' -> exists x, In x l /\ R x y.
Proof.
  induction 1 as [|x y' l l' Hxy _ IH]; intros Hin; [destruct Hin|].
  destruct Hin as [<-|Hin].
  - exists x. split; [now left|exact Hxy].
  - destruct (IH Hin) as (x0 & Hin0 & Hr). exists x0. split; [now right|exact Hr].
Qed.

(** X9.  Every row in the table after a run, however the run ends, is a row that
    was there before, with the same [other] columns and the same
    [user_email]; the routine creates no row, and the table has at most as
    many rows as before. *)
Theorem rows_come_from_rows (d : Db) :
  (forall r',
      In r' (workspace_member (final_db (run d))) ->
      exists r v, In r (workspace_member d) /\ r' = set_user_id v r) /\
  (length (workspace_member (final_db (run d))) <= length (workspace_member d))%nat.
Proof.
  assert (forall r1, In r1 (workspace_member (with_user_id_column d)) ->
                     exists r v, In r (workspace_member d) /\ r1 = set_user_id v r)
    as Hcol.
  { unfold with_user_id_column. simpl. intros r1 Hin.
    destruct (some_user_id_column d); simpl in Hin.
    - exists r1, (user_id r1). split; [exact Hin|]. now rewrite set_user_id_same.
    - apply in_map_iff in Hin. destruct Hin as (r & <- & Hin). now exists r, None. }
  assert (length (workspace_member (with_user_id_column d))
          = length (workspace_member d)) as Hlen.
  { unfold with_user_id_column. simpl.
    destruct (some_user_id_column d); simpl; [reflexivity|apply length_map]. }
  rewrite run_eq. unfold run_closed, final_db.
  destruct (legacy_found d).
  - destruct (negb _); [simpl; split; [exact Hcol|now rewrite Hlen]|].
    destruct (update_user_id _ _) as [err|rows2] eqn:Hup; simpl.
    + split; [exact Hcol|]. now rewrite Hlen.
    + pose proof (update_user_id_pointwise _ _ _ Hup) as Hpt. split.
      * intros r' Hin. apply in_sweep in Hin. destruct Hin as [Hin _].
        apply in_sweep in Hin. destruct Hin as [Hin _].
        destruct (Forall2_from_right _ _ _ r' Hpt Hin) as (r1 & Hin1 & Hrel).
        destruct (Hcol r1 Hin1) as (r & v & Hin0 & ->).
        destruct Hrel as [->|(e & v' & _ & _ & _ & ->)]; [now exists r, v|].
        now exists r, v'.
      * rewrite <- Hlen, (Forall2_length Hpt). unfold sweep.
        etransitivity; [apply filter_length_le|apply filter_length_le].
  - destruct (has_user_id d); simpl.
    + split.
      * intros r' Hin. apply in_sweep in Hin. destruct Hin as [Hin _].
        exists r', (user_id r'). split; [exact Hin|]. now rewrite set_user_id_same.
      * apply filter_length_le.
    + split; [|reflexivity]. intros r' Hin.
      exists r', (user_id r'). split; [exact Hin|]. now rewrite set_user_id_same.
Qed.

Lemma select_user_id_some (users : list User) (e i : string) :
  select_user_id users e = inr (Some i) ->
  exists u, filter (fun u' => String.eqb (email u') e) users = [u] /\
            In u users /\ email u = e /\ id u = i.
Proof.
  unfold select_user_id. intros Hsel.
  destruct (filter _ users) as [|u [|u2 l]] eqn:Hf; try discriminate.
  injection Hsel as <-. exists u. split; [reflexivity|].
  assert (In u (filter (fun u' => String.eqb (email u') e) users)) as Hin
    by (rewrite Hf; now left).
  apply filter_In in Hin. destruct Hin as [Hin He].
  apply String.eqb_eq in He. auto.
Qed.

(** X10.  After a run that completes on a table with the [user_email] column,
    every row left either was there before with the [user_id] it has now, or
    got its [user_id] from the one user whose email is the row's
    [user_email]. *)
Theorem resolved_rows_point_to_a_user (d d' : Db) (t : list (event Db Error))
  (r' : WorkspaceMember) :
  run d = (d', t, inr tt) ->
  has_user_email d = true ->
  In r' (workspace_member d') ->
  (has_user_id d = true /\ In r' (workspace_member d) /\ user_id r' <> None)
  \/
  exists r u,
    In r (workspace_member d) /\
    (has_user_id d = true -> user_id r = None) /\
    user_email r = Some (email u) /\
    filter (fun u' => String.eqb (email u') (email u)) (user d) = [u] /\
    r' = set_user_id (Some (id u)) r.
Proof.
  intros Hrun Hue Hin.
  pose proof (completed_run_rows d d' t r' Hrun Hin) as Hset.
  destruct (legacy_run_columns d d' t Hrun Hue) as (Hid1 & _).
  destruct (legacy_run d d' t Hrun Hue) as (rows2 & Hup & -> & _).
  simpl in Hin. apply in_sweep in Hin. destruct Hin as [Hin _].
  apply in_sweep in Hin. destruct Hin as [Hin _].
  destruct (Forall2_from_right _ _ _ r' (update_user_id_pointwise _ _ _ Hup) Hin)
    as (r1 & Hin1 & Hrel).
  assert ((has_user_id d = true /\ In r1 (workspace_member d))
          \/ (has_user_id d = false /\
              exists r, In r (workspace_member d) /\ r1 = set_user_id None r))
    as Hfrom.
  { unfold with_user_id_column in Hin1, Hid1. simpl in Hin1, Hid1.
    unfold some_user_id_column in Hin1, Hid1.
    destruct (has_user_id d) eqn:Hid; simpl in Hin1, Hid1; [now left|].
    destruct (existsb with_user_id (elsewhere d)); simpl in Hin1, Hid1.
    - rewrite Hid in Hid1. discriminate Hid1.
    - right. split; [reflexivity|]. apply in_map_iff in Hin1.
      destruct Hin1 as (r & <- & Hin0). now exists r. }
  destruct Hrel as [->|(e & v & Hi & He & Hsel & ->)].
  - left. destruct Hfrom as [[Hid Hin0]|[_ (r & _ & ->)]]; [auto|].
    now contradiction Hset.
  - right. destruct v as [i|]; [|now contradiction Hset].
    destruct (select_user_id_some _ _ _ Hsel) as (u & Hf & _ & <- & <-).
    destruct Hfrom as [[Hid Hin0]|[Hid (r & Hin0 & ->)]].
    + exists r1, u. auto.
    + exists r, u. split; [exact Hin0|].
      split; [rewrite Hid; discriminate|]. auto.
Qed.

Lemma resolved_rows_point_to_a_user_witness :
  exists r u,
    In r (workspace_member legacy_db) /\
    member "m1" (Some "alice@example.com") (Some "u1")
    = set_user_id (Some (id u)) r.
Proof.
  destruct (resolved_rows_point_to_a_user legacy_db (final_db (run legacy_db))
              (trace (run legacy_db))
              (member "m1" (Some "alice@example.com") (Some "u1")))
    as [(Hid & _)|(r & u & Hin & _ & _ & _ & Heq)].
  - vm_compute. reflexivity.
  - reflexivity.
  - vm_compute. auto.
  - discriminate Hid.
  - exists r, u. auto.
Defined.

(** X11.  Whenever the branch of lines 23-91 ran, the check of lines 93-111 finds
    nothing: its count is zero, its DELETE is never executed and neither of
    its two lines is logged. *)
Theorem final_sweep_idle_after_legacy_branch (d : Db) :
  has_user_email d = true ->
  ~ In DeleteNullUserIds (executed (trace (run d))) /\
  (forall count, ~ In (ConsoleLog (FoundNullUserId count)) (trace (run d))) /\
  ~ In (ConsoleLog RemovedNullUserId) (trace (run d)) /\
  (forall on thrown,
      In (Executed CountNullUserIds on thrown) (trace (run d)) ->
      thrown = None /\ tally where_null_user_id (workspace_member on) = 0%nat).
Proof.
  intros Hue. rewrite run_eq. unfold run_closed, trace.
  rewrite (legacy_found_of_column d Hue).
  destruct (has_user_id (with_user_id_column d) &&
            has_user_email (with_user_id_column d)); cbn [negb];
    [destruct (update_user_id _ _) as [err|rows2]|].
  1, 3: simpl; repeat split; try (intuition discriminate);
    intros; intuition discriminate.
  trace_cases.
  all: split; [intuition discriminate|].
  all: split; [intros count Hin; intuition discriminate|].
  all: split; [intuition discriminate|].
  all: intros on thrown Hin;
    repeat (destruct Hin as [Hin|Hin]; try discriminate Hin);
    try contradiction; injection Hin as <- <-;
    (split; [reflexivity|apply no_null_user_id_left]).
Qed.

Lemma final_sweep_idle_after_legacy_branch_witness :
  tally where_null_user_id (workspace_member (final_db (run legacy_db))) = 0%nat.
Proof.
  apply (proj2 (proj2 (proj2
           (final_sweep_idle_after_legacy_branch legacy_db eq_refl)))
           (final_db (run legacy_db)) None).
  vm_compute. auto 20.
Defined.

(** X12.  The count and the DELETE of lines 73-88 only ever see rows whose email
    is NULL: on the database they run on, no row with a NULL [user_id] has a
    [user_email], so the test ["user_email" = ''] of lines 76 and 86 never
    decides anything. *)
Theorem null_records_have_null_email (d : Db) (q : statement) (on : Db)
  (thrown : option Error) (r : WorkspaceMember) :
  In (Executed q on thrown) (trace (run d)) ->
  q = CountNullRecords \/ q = DeleteNullRecords ->
  In r (workspace_member on) ->
  user_id r = None ->
  user_email r = None.
Proof.
  rewrite run_eq. unfold run_closed, trace. intros Hin Hq Hr Hnull.
  assert (forall rows2, In r (sweep where_orphaned rows2) -> user_email r = None)
    as Hswept.
  { intros rows2 Hin2. apply in_sweep in Hin2. destruct Hin2 as [_ Ho].
    unfold where_orphaned in Ho. rewrite Hnull in Ho.
    now destruct (user_email r). }
  destruct (legacy_found d).
  - destruct (has_user_id (with_user_id_column d) &&
              has_user_email (with_user_id_column d)); cbn [negb] in Hin;
      [destruct (update_user_id _ _) as [err|rows2]|].
    + simpl in Hin. destruct Hq as [-> | ->]; intuition discriminate.
    + trace_cases.
      all: destruct Hq as [-> | ->];
        repeat (destruct Hin as [Hin|Hin]; try discriminate Hin);
        try contradiction; injection Hin as <- <-; now apply (Hswept rows2).
    + simpl in Hin. destruct Hq as [-> | ->]; intuition discriminate.
  - destruct (has_user_id d); trace_cases;
      destruct Hq as [-> | ->]; intuition discriminate.
Qed.

Lemma null_records_have_null_email_witness :
  user_email (member "m4" None None) = None.
Proof.
  apply (null_records_have_null_email mixed_db DeleteNullRecords
           (set_workspace_member
              [member "m1" (Some "alice@example.com") (Some "u1");
               member "m2" (Some "bob@example.com") (Some "u2");
               member "m4" None None] mixed_db)
           None (member "m4" None None)).
  - vm_compute. auto 20.
  - now right.
  - simpl. auto.
  - reflexivity.
Defined.

(** X13.  The number each "Found ..." line reports is the number of rows the
    DELETE after it removes, and it is never zero. *)
Theorem reported_count_is_rows_deleted (d : Db) (q : statement) (on : Db)
  (thrown : option Error) :
  In (Executed q on thrown) (trace (run d)) ->
  q = DeleteOrphaned \/ q = DeleteNullRecords \/ q = DeleteNullUserIds ->
  thrown = None /\
  exists n,
    (0 < n)%nat /\
    length (workspace_member (fst (pg_execute q on))) + n
    = length (workspace_member on) /\
    In (ConsoleLog
          ((match q with
            | DeleteOrphaned => FoundInvalidUserEmail
            | DeleteNullRecords => FoundNoUserIdentification
            | _ => FoundNullUserId
            end) (count_of (count_result n))))
       (trace (run d)).
Proof.
  rewrite run_eq. unfold run_closed, trace. intros Hin Hq.
  assert (forall p rows, length (sweep p rows) + tally p rows = length rows)
    as Hlen.
  { intros p rows. unfold sweep, tally. rewrite Nat.add_comm. apply filter_length. }
  destruct (legacy_found d).
  - destruct (has_user_id (with_user_id_column d) &&
              has_user_email (with_user_id_column d)) eqn:Hcols;
      cbn [negb] in Hin |- *;
      [destruct (update_user_id _ _) as [err|rows2]|].
    3: simpl in Hin; destruct Hq as [-> | [-> | ->]]; intuition discriminate.
    + simpl in Hin. destruct Hq as [-> | [-> | ->]]; intuition discriminate.
    + apply andb_true_iff in Hcols. destruct Hcols as [Hid1 Hue1].
      trace_cases.
      all: destruct Hq as [-> | [-> | ->]];
        repeat (destruct Hin as [Hin|Hin]; try discriminate Hin);
        try contradiction; injection Hin as <- <-;
        (split; [reflexivity|]);
        simpl; unfold needing; rewrite Hid1, Hue1; simpl;
        eexists; (split; [|split; [apply Hlen|auto 20]]);
        apply Nat.ltb_lt; assumption.
  - destruct (has_user_id d) eqn:Hid; trace_cases.
    all: destruct Hq as [-> | [-> | ->]];
      repeat (destruct Hin as [Hin|Hin]; try discriminate Hin);
      try contradiction; injection Hin as <- <-;
      (split; [reflexivity|]);
      simpl; unfold needing; rewrite Hid; simpl;
      eexists; (split; [|split; [apply Hlen|auto 20]]);
      apply Nat.ltb_lt; assumption.
Qed.

Lemma reported_count_is_rows_deleted_witness :
  exists n,
    (0 < n)%nat /\
    length (workspace_member (fst (pg_execute DeleteNullUserIds migrated_db))) + n
    = length (workspace_member migrated_db).
Proof.
  destruct (reported_count_is_rows_deleted migrated_db DeleteNullUserIds
              migrated_db None) as (_ & n & Hpos & Hlen & _).
  - vm_compute. auto 20.
  - auto.
  - exists n. auto.
Defined.

(* ------------------------------------------------------------------ *)
(** ** More on the popover *)

(** X14.  The five option values are pairwise distinct, so the React keys are
    unique and at most one checkmark is rendered; one is rendered exactly
    when the task's [priority] is one of the five values. *)
Theorem at_most_one_checkmark (task : Popover.Task) :
  NoDup (map Popover.key (Popover.TaskPriorityPopover task)) /\
  (length (filter Popover.check (Popover.TaskPriorityPopover task)) <= 1)%nat /\
  (length (filter Popover.check (Popover.TaskPriorityPopover task)) = 1%nat
   <-> exists p, In p Popover.priorityOptions /\
                 JS.get task "priority" = JS.str (Popover.value p)).
Proof.
  split.
  - simpl. repeat constructor; simpl; intuition discriminate.
  - unfold Popover.TaskPriorityPopover, Popover.priorityOptions. simpl.
    destruct (JS.get task "priority") as [| |b|z|s]; simpl.
    1-4: split; [lia|]; split; [discriminate|];
      intros (p & _ & Hp); discriminate Hp.
    destruct (String.eqb s "no-priority") eqn:H1;
      destruct (String.eqb s "low") eqn:H2;
      destruct (String.eqb s "medium") eqn:H3;
      destruct (String.eqb s "high") eqn:H4;
      destruct (String.eqb s "urgent") eqn:H5;
      repeat match goal with
             | Hx : String.eqb _ _ = true |- _ => apply String.eqb_eq in Hx
             end;
      try congruence; simpl; (split; [lia|]).
    all: split;
      [ try discriminate; intros _;
        let pick i :=
          (exists (nth i Popover.priorityOptions
                     {| Popover.value := s; Popover.label := s |});
           split; [simpl; auto 6|subst s; reflexivity]) in
        first [pick 0%nat | pick 1%nat | pick 2%nat | pick 3%nat | pick 4%nat]
      | try (intros _; reflexivity) ].
    intros (p & Hin & Hp). injection Hp as ->.
    repeat (destruct Hin as [Hin|Hin]; [subst p; simpl in *; discriminate|]).
    destruct Hin.
Qed.

(** X15.  [{...o, k: v}] keeps the keys of [o] in their order and adds [k] last
    when [o] has no such key; it never repeats a key; and overriding the
    same key twice is overriding it once with the later value. *)
Theorem spread_then_override (o : JS.object) (k : string) (v v' : JS.value) :
  map fst (JS.set k v o)
  = (if existsb (fun k' => String.eqb k' k) (map fst o)
     then map fst o
     else map fst o ++ [k]) /\
  (NoDup (map fst o) -> NoDup (map fst (JS.set k v o))) /\
  JS.set k v' (JS.set k v o) = JS.set k v' o.
Proof.
  assert (map fst (JS.set k v o)
          = (if existsb (fun k' => String.eqb k' k) (map fst o)
             then map fst o
             else map fst o ++ [k])) as Hkeys.
  { induction o as [|[k0 v0] rest IH]; simpl; [reflexivity|].
    destruct (String.eqb k0 k) eqn:Hk; simpl.
    - apply String.eqb_eq in Hk. now subst.
    - rewrite IH. now destruct (existsb _ (map fst rest)). }
  split; [exact Hkeys|]. split.
  - intros Hnd. rewrite Hkeys.
    destruct (existsb _ (map fst o)) eqn:Hex; [exact Hnd|].
    apply NoDup_app; [exact Hnd|repeat constructor; intros []|].
    intros k0 Hin [Heq|[]]. subst k0.
    assert (existsb (fun k' => String.eqb k' k) (map fst o) = true) as Hyes
      by (apply existsb_exists; exists k; split;
          [exact Hin|apply String.eqb_refl]).
    congruence.
  - clear Hkeys. induction o as [|[k0 v0] rest IH]; simpl.
    + now rewrite String.eqb_refl.
    + destruct (String.eqb k0 k) eqn:Hk; simpl.
      * now rewrite String.eqb_refl.
      * now rewrite Hk, IH.
Qed.

Lemma spread_then_override_witness :
  NoDup (map fst (JS.set "priority" (JS.str "urgent") low_task)).
Proof.
  apply (spread_then_override low_task "priority" (JS.str "urgent") JS.undefined).
  simpl. repeat constructor; simpl; intuition discriminate.
Defined.

(* ------------------------------------------------------------------ *)
(** ** Instances on the sample databases *)

Lemma postgres_counts_as_digits : counts_as_digits (S := Db) (E := Error).
Proof.
  intros q on on' r Hexec Hq.
  assert (forall p, select_count p on = (on', inr r) ->
                    exists digits n,
                      count_of r = JS.str digits /\
                      NilEmpty.uint_of_string digits = Some n) as Hcount.
  { unfold select_count. intros p Heq. injection Heq as _ <-.
    do 2 eexists. split; [reflexivity|apply NilEmpty.usu]. }
  simpl in Hexec. unfold pg_execute, needing in Hexec.
  destruct Hq as [-> | [-> | ->]];
    destruct (has_user_id on); simpl in Hexec; try discriminate Hexec;
    try (destruct (has_user_email on); simpl in Hexec; try discriminate Hexec);
    eapply Hcount; exact Hexec.
Qed.

Lemma delete_only_after_positive_count_witness :
  exists on0 r digits n,
    pg_execute CountNullUserIds on0 = (migrated_db, inr r) /\
    count_of r = JS.str digits /\
    NilEmpty.uint_of_string digits = Some n /\
    (0 < N.of_uint n)%N.
Proof.
  destruct (proj2 (proj2 (delete_only_after_positive_count migrated_db
                            postgres_counts_as_digits))
              migrated_db None)
    as (on0 & r & digits & n & _ & Hcount & Hr & Hn & Hpos).
  - vm_compute. auto 20.
  - exists on0, r, digits, n. auto.
Defined.

Lemma closing_log_lines_witness :
  last (trace (run legacy_db)) (ConsoleLog Checking) = ConsoleLog Completed.
Proof.
  apply (proj1 (proj2 (closing_log_lines legacy_db))).
  vm_compute. reflexivity.
Defined.

Lemma legacy_branch_only_after_probe_witness :
  In AddUserIdColumn (executed (trace (run legacy_db))).
Proof.
  apply (proj2 (legacy_branch_only_after_probe legacy_db) UpdateUserId).
  - vm_compute. auto 20.
  - simpl. lia.
Defined.

Lemma rows_come_from_rows_witness :
  exists r v,
    In r (workspace_member legacy_db) /\
    member "m1" (Some "alice@example.com") (Some "u1") = set_user_id v r.
Proof.
  apply (proj1 (rows_come_from_rows legacy_db)).
  vm_compute. auto.
Defined.
